(** * A shallow embedding of the quiz-solving agent's control code

    Sources embedded here:
    - [tools/process_csv.py]  : [_apply_filters], [process_csv]
    - [tools/send_request.py] : [post_request], [get_request]
    - [agent.py]              : [SYSTEM_PROMPT], the decision part of
                                [agent_node], [handle_malformed_node], [route]
    - [tools/run_code.py]     : [strip_code_fences], [run_code]
    - [tools/interpret_instruction.py] : the parsing of the model's answer
    - [tools/audio_transcribing.py], [tools/image_content_extracter.py] :
                                the path of the file and the not-found answer

    Python values are embedded as the inductive [pyval]; Python floats are
    IEEE binary64 numbers, embedded as Rocq's primitive [float].  Exceptions
    are explicit: fallible code returns [res A], either [Ok a] or
    [Raise kind message].  Built-ins of CPython and of third-party libraries
    whose text is not part of the repository (string-to-number parsing,
    [csv.reader], [urlparse], [trim_messages], the fields that a message
    shows in its [repr], the clock, the HTTP client) are taken as
    parameters; [Ref] gives small instances used to evaluate the definitions
    on examples.  Strings are ASCII text. *)

From Stdlib Require Import ZArith String Ascii List Bool Floats DecimalString Lia.
From stdpp Require Import base option list gmap strings.

Set Warnings "-register-all".
Open Scope string_scope.
Open Scope Z_scope.

(** ** Python values and exceptions *)

Module Py.

Inductive pyval : Type :=
| PNone
| PBool (b : bool)
| PInt (z : Z)
| PFloat (f : float)
| PStr (s : string)
| PList (l : list pyval)
| PDict (kv : list (string * pyval)).

Inductive exn_kind : Type :=
| ValueError | TypeError | KeyError | IndexError | AttributeError
| OverflowError | ZeroDivisionError | CsvError | OtherError.

Inductive res (A : Type) : Type :=
| Ok (a : A)
| Raise (k : exn_kind) (msg : string).

Arguments Ok {A} a.
Arguments Raise {A} k msg.

Definition bind {A B : Type} (r : res A) (f : A -> res B) : res B :=
  match r with
  | Ok a => f a
  | Raise k msg => Raise k msg
  end.

Definition raised {A : Type} (k : exn_kind) (r : res A) : Prop :=
  match r with
  | Ok _ => False
  | Raise k' _ => k' = k
  end.

(** [try: ... except Exception: <fallback>] around a pure computation. *)
Definition try_except {A : Type} (r : res A) (fallback : A) : A :=
  match r with
  | Ok a => a
  | Raise _ _ => fallback
  end.

(** [bool(v)], the truth value used by [if v] and [not v]. *)
Definition truthy (v : pyval) : bool :=
  match v with
  | PNone => false
  | PBool b => b
  | PInt z => negb (z =? 0)
  | PFloat f => negb (PrimFloat.eqb f 0%float)
  | PStr s => negb (String.eqb s "")
  | PList l => match l with [] => false | _ => true end
  | PDict kv => match kv with [] => false | _ => true end
  end.

(** [d.get(key)] on a dict held as its item list (keys are distinct). *)
Fixpoint dict_get (kv : list (string * pyval)) (key : string) : option pyval :=
  match kv with
  | [] => None
  | (k, v) :: rest => if String.eqb k key then Some v else dict_get rest key
  end.

(** [d.get(key, default)]. *)
Definition dict_get_or (kv : list (string * pyval)) (key : string) (default : pyval) : pyval :=
  match dict_get kv key with
  | Some v => v
  | None => default
  end.

(** [d[key] = v]: overwrite in place, or append a new item. *)
Fixpoint dict_set (kv : list (string * pyval)) (key : string) (v : pyval) : list (string * pyval) :=
  match kv with
  | [] => [(key, v)]
  | (k, v0) :: rest =>
      if String.eqb k key then (k, v) :: rest else (k, v0) :: dict_set rest key v
  end.

(** [type(v).__name__]. *)
Definition type_name (v : pyval) : string :=
  match v with
  | PNone => "NoneType"
  | PBool _ => "bool"
  | PInt _ => "int"
  | PFloat _ => "float"
  | PStr _ => "str"
  | PList _ => "list"
  | PDict _ => "dict"
  end.

(** [v.get(key, default)] on an arbitrary value: only a dict has [get]. *)
Definition py_get (v : pyval) (key : string) (default : pyval) : res pyval :=
  match v with
  | PDict kv => Ok (dict_get_or kv key default)
  | _ => Raise AttributeError ("'" +:+ type_name v +:+ "' object has no attribute 'get'")
  end.

(** [needle in hay] on strings. *)
Fixpoint contains (needle hay : string) : bool :=
  String.prefix needle hay ||
  match hay with
  | EmptyString => false
  | String _ rest => contains needle rest
  end.

(** Split at the first occurrence of [sep]. *)
Fixpoint split_once (sep : ascii) (s : string) : string * option string :=
  match s with
  | EmptyString => (EmptyString, None)
  | String c rest =>
      if Ascii.eqb c sep then (EmptyString, Some rest)
      else let '(a, b) := split_once sep rest in (String c a, b)
  end.

Definition ascii_lower (c : ascii) : ascii :=
  let n := N_of_ascii c in
  if ((65 <=? n) && (n <=? 90))%N then ascii_of_N (n + 32) else c.

(** Whether [s] holds the NUL character. *)
Fixpoint has_nul (s : string) : bool :=
  match s with
  | EmptyString => false
  | String c rest => Ascii.eqb c Ascii.zero || has_nul rest
  end.

(** [s.lower()] on ASCII text. *)
Fixpoint lower (s : string) : string :=
  match s with
  | EmptyString => EmptyString
  | String c rest => String (ascii_lower c) (lower rest)
  end.

(** [l[i]] with Python's negative indices; [None] stands for IndexError. *)
Definition py_index {A : Type} (l : list A) (i : Z) : option A :=
  let n := Z.of_nat (length l) in
  if (0 <=? i) && (i <? n) then nth_error l (Z.to_nat i)
  else if (i <? 0) && (- n <=? i) then nth_error l (Z.to_nat (n + i))
  else None.

(** The binary64 number nearest to [z] (an infinity beyond the range). *)
Definition float_of_Z (z : Z) : float := SF2Prim (binary_normalize prec emax z 0 false).

(** [float(n)] on an int: round to nearest, OverflowError beyond the range. *)
Definition float_of_int (z : Z) : res float :=
  let f := float_of_Z z in
  if PrimFloat.is_infinity f
  then Raise OverflowError "int too large to convert to float"
  else Ok f.

(** [int(f)] on a float: truncation toward zero. *)
Definition int_of_float (f : float) : res Z :=
  match Prim2SF f with
  | S754_zero _ => Ok 0
  | S754_finite s m e =>
      let a := if 0 <=? e then Z.pos m * 2 ^ e else Z.pos m / 2 ^ (- e) in
      Ok (if s then - a else a)
  | S754_infinity _ => Raise OverflowError "cannot convert float infinity to integer"
  | S754_nan => Raise ValueError "cannot convert float NaN to integer"
  end.

(** The built-ins whose text is outside the repository. *)
Class Runtime : Type := {
  (** [float(s)] on a str; [None] stands for ValueError. *)
  float_of_str : string -> option float;
  (** [int(s)] on a str; [None] stands for ValueError. *)
  int_of_str : string -> option Z;
  (** [str(v)] on a value that is not a str. *)
  py_repr : pyval -> string;
  (** [list(csv.reader(StringIO(text)))]: the rows the reader yields, or
      the message of the [csv.Error] it raises on the way (a carriage
      return inside a line, a field above the size limit). *)
  csv_reader : string -> list (list string) + string;
  (** the text of a float holds no NUL character. *)
  float_repr_no_nul : forall f : float, has_nul (py_repr (PFloat f)) = false;
}.

Section Conversions.
Context {rt : Runtime}.

(** [str(v)]. *)
Definition py_str (v : pyval) : string :=
  match v with
  | PStr s => s
  | _ => py_repr v
  end.

(** [int(v)]. *)
Definition py_int (v : pyval) : res Z :=
  match v with
  | PInt z => Ok z
  | PBool b => Ok (if b then 1 else 0)
  | PFloat f => int_of_float f
  | PStr s =>
      match int_of_str s with
      | Some z => Ok z
      | None => Raise ValueError ("invalid literal for int() with base 10: " +:+ s)
      end
  | _ => Raise TypeError
           ("int() argument must be a string, a bytes-like object or a real number, not '"
            +:+ type_name v +:+ "'")
  end.

(** [float(v)]. *)
Definition py_float (v : pyval) : res float :=
  match v with
  | PFloat f => Ok f
  | PInt z => float_of_int z
  | PBool b => Ok (if b then 1%float else 0%float)
  | PStr s =>
      match float_of_str s with
      | Some f => Ok f
      | None => Raise ValueError ("could not convert string to float: " +:+ s)
      end
  | _ => Raise TypeError
           ("float() argument must be a string or a real number, not '"
            +:+ type_name v +:+ "'")
  end.

End Conversions.

End Py.

(** ** tools/process_csv.py *)

Module ProcessCsv.
Import Py.

Section Executor.
Context {rt : Runtime}.

(** One iteration of the loop of [_apply_filters]: the four conversions of
    the [try] block, then the comparison chain.  Any exception raised in the
    [try] block, a failed comparison and an operator outside the six known
    ones all make the row fail. *)
Definition filter_bindings (row_values : list float) (f : pyval)
  : res (pyval * float * float) :=
  bind (py_get f "column" (PInt 0)) (fun c =>
  bind (py_int c) (fun col =>
  bind (py_get f "op" (PStr "==")) (fun op =>
  bind (py_get f "value" (PInt 0)) (fun v =>
  bind (py_float v) (fun val =>
  match py_index row_values col with
  | Some x => Ok (op, val, x)
  | None => Raise IndexError "list index out of range"
  end))))).

Definition compare_op (op : pyval) (x val : float) : bool :=
  match op with
  | PStr ">" => PrimFloat.ltb val x
  | PStr ">=" => PrimFloat.leb val x
  | PStr "<" => PrimFloat.ltb x val
  | PStr "<=" => PrimFloat.leb x val
  | PStr "==" => PrimFloat.eqb x val
  | PStr "!=" => negb (PrimFloat.eqb x val)
  | _ => false
  end.

Definition filter_passes (row_values : list float) (f : pyval) : bool :=
  try_except
    (bind (filter_bindings row_values f)
       (fun '(op, val, x) => Ok (compare_op op x val)))
    false.

Fixpoint _apply_filters (row_values : list float) (filters : list pyval) : bool :=
  match filters with
  | [] => true
  | f :: rest =>
      if filter_passes row_values f then _apply_filters row_values rest else false
  end.

(** [[float(x) for x in row]]; [None] when some cell raises. *)
Fixpoint row_floats (row : list string) : option (list float) :=
  match row with
  | [] => Some []
  | x :: rest =>
      match float_of_str x, row_floats rest with
      | Some v, Some vs => Some (v :: vs)
      | _, _ => None
      end
  end.

(** The accumulators of the row loop: [values] and [rows_matched]. *)
Record acc : Type := { values : list float; rows_matched : nat }.

(** The body of [for row in reader]. *)
Definition row_step (col_idx : Z) (filters : list pyval) (a : acc) (row : list string) : acc :=
  match row with
  | [] => a
  | _ :: _ =>
      if Z.of_nat (length row) <=? col_idx then a
      else
        match row_floats row with
        | None => a
        | Some row_vals =>
            if negb (_apply_filters row_vals filters) then a
            else
              match py_index row_vals col_idx with
              | None => a
              | Some v => {| values := (values a ++ [v])%list; rows_matched := S (rows_matched a) |}
              end
        end
  end.

(** [for row in reader]: the rows are read one by one, and a [csv.Error]
    raised on the way leaves [process_csv]; what the loop had collected by
    then is lost with it, so the rows are taken at once. *)
Definition read_rows (csv_text : string) : res (list (list string)) :=
  match csv_reader csv_text with
  | inl rows => Ok rows
  | inr msg => Raise CsvError msg
  end.

Definition scan_rows (col_idx : Z) (filters : list pyval) (rows : list (list string)) : acc :=
  fold_left (row_step col_idx filters) rows {| values := []; rows_matched := 0 |}.

(** [sum(values)]: additions from the left, starting at 0.  (From CPython
    3.12 on, [sum] compensates the rounding errors of float additions; the
    two agree whenever the partial sums are exact.) *)
Definition py_sum (vs : list float) : float := fold_left PrimFloat.add vs 0%float.

(** [max(values)] and [min(values)] on a non-empty list. *)
Definition py_max (v0 : float) (vs : list float) : float :=
  fold_left (fun m x => if PrimFloat.ltb m x then x else m) vs v0.

Definition py_min (v0 : float) (vs : list float) : float :=
  fold_left (fun m x => if PrimFloat.ltb x m then x else m) vs v0.

(** [a / len(l)]: ZeroDivisionError on 0.  A length is below 2^63, so its
    conversion to float cannot overflow. *)
Definition py_truediv (a : float) (n : nat) : res float :=
  match n with
  | O => Raise ZeroDivisionError "float division by zero"
  | S _ => Ok (PrimFloat.div a (float_of_Z (Z.of_nat n)))
  end.

Definition is_in (s : string) (names : list string) : bool :=
  existsb (String.eqb s) names.

(** The [if not values: ... else: ...] block. *)
Definition aggregate (op_name : string) (vs : list float) : res pyval :=
  match vs with
  | [] => Ok (PInt 0)
  | v0 :: rest =>
      if is_in op_name ["sum"; "total"] then Ok (PFloat (py_sum vs))
      else if String.eqb op_name "count" then Ok (PInt (Z.of_nat (length vs)))
      else if String.eqb op_name "max" then Ok (PFloat (py_max v0 rest))
      else if String.eqb op_name "min" then Ok (PFloat (py_min v0 rest))
      else if is_in op_name ["avg"; "average"; "mean"]
      then bind (py_truediv (py_sum vs) (length vs)) (fun r => Ok (PFloat r))
      else Ok (PFloat (py_sum vs))
  end.

Definition read_filters (operations : list (string * pyval)) : list pyval :=
  match dict_get_or operations "filters" (PList []) with
  | PList l => l
  | _ => []
  end.

Definition process_csv (csv_text : string) (operations : list (string * pyval))
  : res (list (string * pyval)) :=
  let op_name := lower (py_str (dict_get_or operations "operation" (PStr "sum"))) in
  bind (py_int (dict_get_or operations "column" (PInt 0))) (fun col_idx =>
  let filters := read_filters operations in
  bind (read_rows csv_text) (fun rows =>
  let a := scan_rows col_idx filters rows in
  bind (aggregate op_name (values a)) (fun result =>
  Ok [("result", result);
      ("rows_matched", PInt (Z.of_nat (rows_matched a)));
      ("operation", PStr op_name);
      ("column", PInt col_idx);
      ("filters", PList filters)]))).

End Executor.

End ProcessCsv.

(** ** tools/send_request.py *)

Module SendRequest.
Import Py.

(** Keys of the [url_time] dict.  A key is the follow-up [url] of a reply,
    so any hashable JSON value; numbers that compare equal (1, 1.0, True)
    are one key. *)
Inductive pykey : Type :=
| KNone
| KStr (s : string)
| KInt (z : Z)
| KFloat (sf : spec_float).

#[export] Instance spec_float_eq_dec : EqDecision spec_float.
Proof. solve_decision. Defined.

#[export] Instance pykey_eq_dec : EqDecision pykey.
Proof. solve_decision. Defined.

Definition pykey_code (k : pykey)
  : option (string + (Z + (bool + (bool + (unit + bool * positive * Z))))) :=
  match k with
  | KNone => None
  | KStr s => Some (inl s)
  | KInt z => Some (inr (inl z))
  | KFloat (S754_zero s) => Some (inr (inr (inl s)))
  | KFloat (S754_infinity s) => Some (inr (inr (inr (inl s))))
  | KFloat S754_nan => Some (inr (inr (inr (inr (inl tt)))))
  | KFloat (S754_finite s m e) => Some (inr (inr (inr (inr (inr (s, m, e))))))
  end.

Definition pykey_decode
  (c : option (string + (Z + (bool + (bool + (unit + bool * positive * Z)))))) : pykey :=
  match c with
  | None => KNone
  | Some (inl s) => KStr s
  | Some (inr (inl z)) => KInt z
  | Some (inr (inr (inl s))) => KFloat (S754_zero s)
  | Some (inr (inr (inr (inl s)))) => KFloat (S754_infinity s)
  | Some (inr (inr (inr (inr (inl _))))) => KFloat S754_nan
  | Some (inr (inr (inr (inr (inr (s, m, e)))))) => KFloat (S754_finite s m e)
  end.

#[export] Instance pykey_countable : Countable pykey.
Proof.
  apply (inj_countable' pykey_code pykey_decode).
  intros [|s|z|[s|s| |s m e]]; reflexivity.
Defined.

(** The key under which a dict files [v]; TypeError on a list or a dict. *)
Definition key_of (v : pyval) : res pykey :=
  match v with
  | PStr s => Ok (KStr s)
  | PInt z => Ok (KInt z)
  | PBool b => Ok (KInt (if b then 1 else 0))
  | PFloat f =>
      match int_of_float f with
      | Ok z => if PrimFloat.eqb (float_of_Z z) f then Ok (KInt z) else Ok (KFloat (Prim2SF f))
      | Raise _ _ => Ok (KFloat (Prim2SF f))
      end
  | PNone => Ok KNone
  | PList _ | PDict _ => Raise TypeError ("unhashable type: '" +:+ type_name v +:+ "'")
  end.

Record request : Type := {
  req_url : string;
  req_json : list (string * pyval);
  req_headers : list (string * string);
}.

(** What [requests.post] gives back: it raises (no connection, timeout, ...)
    or returns a response with a status code, a JSON body when the body
    parses as JSON, and the raw text. *)
Inductive reply : Type :=
| NoReply (msg : string)
| Reply (status_code : Z) (json : option pyval) (text : string).

(** Modelled from the spec: the module [shared_store], imported by
    [send_request.py] and [agent.py], is not among the sources.  Its two
    objects are taken as plain dicts: [url_time], the registry that maps a
    task-identifier to the time of its first encounter, and [BASE64_STORE],
    the shared artifact store that maps a lookup key to a stored value (so
    [BASE64_STORE[key]] raises KeyError on a key it does not hold).

    [world] is the process-wide state that [post_request] and [agent_node]
    share: the two dicts above, the attempt counters [cache], the process
    environment, the module-level [SECRET], the number of clock readings
    made so far, and the log of the POST requests sent so far. *)
Record world : Type := {
  cache : gmap (option string) nat;
  url_time : gmap pykey float;
  environ : gmap string string;
  BASE64_STORE : gmap string pyval;
  SECRET : option string;
  ticks : nat;
  posted : list request;
}.

Definition retry_limit : nat := 4.

Definition blocked_domains : list string :=
  ["example.com"; "YOUR_"; "quiz.example.com"; "api.example.com"].

(** [cache[key]] on the [defaultdict(int)]. *)
Definition cache_get (w : world) (key : option string) : nat := default 0%nat (cache w !! key).

(** The [return] statements of [post_request], and the dict each one builds. *)
Inductive outcome : Type :=
| InvalidURL (url : string)
| PlaceholderURL (url : string)
| NonJson (text : string)
| Terminate (data : pyval)
| Continue (data : list (string * pyval))
| HttpFailure (err_data : pyval) (status_code : Z)
| Failure (msg : string).

Definition to_dict (o : outcome) : list (string * pyval) :=
  match o with
  | InvalidURL url =>
      [("error", PStr ("Invalid URL: " +:+ url +:+ ". Must be a complete URL with https://"))]
  | PlaceholderURL url =>
      [("error", PStr ("Refusing to send to placeholder URL: " +:+ url
                       +:+ ". Use the actual URL from the page."))]
  | NonJson text => [("error", PStr "non_json_response"); ("text", PStr text)]
  | Terminate data => [("agent_signal", PStr "END"); ("response", data)]
  | Continue data => data
  | HttpFailure err_data status_code => [("error", err_data); ("status_code", PInt status_code)]
  | Failure msg => [("error", PStr msg)]
  end.

(** State and exceptions: a raised exception keeps the state reached so far. *)
Definition M (A : Type) : Type := world -> res A * world.

Definition ret {A : Type} (a : A) : M A := fun w => (Ok a, w).

Definition raise {A : Type} (k : exn_kind) (msg : string) : M A := fun w => (Raise k msg, w).

Definition bindM {A B : Type} (m : M A) (f : A -> M B) : M B :=
  fun w =>
    match m w with
    | (Ok a, w') => f a w'
    | (Raise k msg, w') => (Raise k msg, w')
    end.

Definition lift {A : Type} (r : res A) : M A := fun w => (r, w).

Definition gets {A : Type} (f : world -> A) : M A := fun w => (Ok (f w), w).

Definition modify (f : world -> world) : M unit := fun w => (Ok tt, f w).

Notation "'do' x <- m ;; k" := (bindM m (fun x => k))
  (at level 10, x name, m at level 99, k at level 200).
Notation "'run' m ;; k" := (bindM m (fun _ => k))
  (at level 10, m at level 99, k at level 200).

Definition set_cache (c : gmap (option string) nat) (w : world) : world :=
  {| cache := c; url_time := url_time w; environ := environ w;
     BASE64_STORE := BASE64_STORE w; SECRET := SECRET w; ticks := ticks w; posted := posted w |}.

Definition set_url_time (u : gmap pykey float) (w : world) : world :=
  {| cache := cache w; url_time := u; environ := environ w;
     BASE64_STORE := BASE64_STORE w; SECRET := SECRET w; ticks := ticks w; posted := posted w |}.

Definition set_environ (e : gmap string string) (w : world) : world :=
  {| cache := cache w; url_time := url_time w; environ := e;
     BASE64_STORE := BASE64_STORE w; SECRET := SECRET w; ticks := ticks w; posted := posted w |}.

Definition set_SECRET (s : option string) (w : world) : world :=
  {| cache := cache w; url_time := url_time w; environ := environ w;
     BASE64_STORE := BASE64_STORE w; SECRET := s; ticks := ticks w; posted := posted w |}.

Definition set_ticks (n : nat) (w : world) : world :=
  {| cache := cache w; url_time := url_time w; environ := environ w;
     BASE64_STORE := BASE64_STORE w; SECRET := SECRET w; ticks := n; posted := posted w |}.

Definition set_posted (l : list request) (w : world) : world :=
  {| cache := cache w; url_time := url_time w; environ := environ w;
     BASE64_STORE := BASE64_STORE w; SECRET := SECRET w; ticks := ticks w; posted := l |}.

Definition default_headers : list (string * string) := [("Content-Type", "application/json")].

(** [v != s] for a str [s]: a value of another type is never equal to it. *)
Definition py_ne_str (v : pyval) (s : string) : bool :=
  match v with
  | PStr s' => negb (String.eqb s' s)
  | _ => true
  end.

(** [s == v] for a str [s]. *)
Definition py_eq_str (s : string) (v : pyval) : bool := negb (py_ne_str v s).

(** [os.getenv(name)] as a Python value. *)
Definition opt_str (o : option string) : pyval :=
  match o with
  | Some s => PStr s
  | None => PNone
  end.

Section PostRequest.
Context {rt : Runtime}.

(** [time.time()]: the reading that the n-th call of the process returns. *)
Variable time_time : nat -> float.

(** [urlparse(url)], reduced to the [scheme] and [netloc] it finds; it
    raises ValueError on some malformed hosts. *)
Variable urlparse : string -> res (string * string).

(** The remote server: its reply to a request, given the requests sent before. *)
Variable requests_post : list request -> request -> reply.

Definition now : M float :=
  fun w => (Ok (time_time (ticks w)), set_ticks (S (ticks w)) w).

Definition getenv (name : string) : M (option string) := gets (fun w => environ w !! name).

(** [os.environ[name] = v]: TypeError unless [v] is a str, ValueError when
    the str holds a NUL character, which the environment cannot store. *)
Definition setenv (name : string) (v : pyval) : M unit :=
  match v with
  | PStr s =>
      if has_nul s then raise ValueError "embedded null byte"
      else modify (fun w => set_environ (<[name := s]> (environ w)) w)
  | _ => raise TypeError ("str expected, not " +:+ type_name v)
  end.

(** Lines 108-112: an answer of the form BASE64_KEY:<key> is replaced by
    [BASE64_STORE[key]]; the lookup is outside the [try] block. *)
Definition resolve_answer (payload : list (string * pyval)) : M (list (string * pyval)) :=
  match dict_get payload "answer" with
  | Some (PStr ans) =>
      if String.prefix "BASE64_KEY:" ans then
        let key := default "" (snd (split_once ":" ans)) in
        do store <- gets BASE64_STORE ;;
        match store !! key with
        | Some v => ret (dict_set payload "answer" v)
        | None => raise KeyError key
        end
      else ret payload
  | _ => ret payload
  end.

(** Lines 115-119: the module-level SECRET is filled from the environment
    when it is still None, then injected when the payload has none. *)
Definition inject_secret (payload : list (string * pyval)) : M (list (string * pyval)) :=
  do s0 <- gets SECRET ;;
  do s <- match s0 with
          | None => do e <- getenv "SECRET" ;; run modify (set_SECRET e) ;; ret e
          | Some _ => ret s0
          end ;;
  if truthy (opt_str s) && negb (truthy (dict_get_or payload "secret" PNone))
  then ret (dict_set payload "secret" (opt_str s))
  else ret payload.

(** Lines 123-130: the two early returns before the [try] block. *)
Definition validate_url (url : string) : M (option outcome) :=
  do parsed <- lift (urlparse url) ;;
  let '(scheme, netloc) := parsed in
  if String.eqb scheme "" || String.eqb netloc "" then ret (Some (InvalidURL url))
  else if existsb (fun blocked => contains blocked url) blocked_domains
       then ret (Some (PlaceholderURL url))
       else ret None.

(** Lines 161-198: what is done with a JSON body. *)
Definition handle_reply (cur_url : option string) (data : pyval) : M outcome :=
  do t1 <- now ;;
  do t2 <- now ;;
  do started <- gets (fun w => url_time w !! (match cur_url with Some u => KStr u | None => KNone end)) ;;
  let delay := PrimFloat.sub t1 (default t2 started) in
  do next_url <- lift (py_get data "url" PNone) ;;
  if negb (truthy next_url) then ret (Terminate data)
  else
    let items := match data with PDict kv => kv | _ => [] end in
    do k <- lift (key_of next_url) ;;
    do known <- gets (fun w => url_time w !! k) ;;
    run match known with
        | Some _ => ret tt
        | None => do t <- now ;; modify (fun w => set_url_time (<[k := t]> (url_time w)) w)
        end ;;
    do data' <-
      (if truthy (dict_get_or items "correct" PNone) then ret items
       else
         do cur_time <- now ;;
         do t3 <- now ;;
         do prev <- gets (fun w => default t3 (url_time w !! k)) ;;
         do attempts <- gets (fun w => cache_get w cur_url) ;;
         if (retry_limit <=? attempts)%nat
            || PrimFloat.leb 180 delay
            || (py_ne_str (PFloat prev) "0" && PrimFloat.ltb 90 (PrimFloat.sub cur_time prev))
         then ret [("url", dict_get_or items "url" (PStr ""))]
         else
           do t4 <- now ;;
           do registered <- gets (fun w => default t4 (url_time w !! k)) ;;
           run setenv "offset" (PStr (py_str (PFloat registered))) ;;
           ret (dict_set (dict_set items "url" (opt_str cur_url)) "message" (PStr "Retry Again!"))) ;;
    let forward_url := dict_get_or data' "url" (PStr "") in
    run setenv "url" forward_url ;;
    run (if match forward_url with PStr s => py_eq_str s next_url | _ => false end
         then setenv "offset" (PStr "0")
         else ret tt) ;;
    ret (Continue data').

(** Lines 135-157: count the attempt, send, and sort the response. *)
Definition send (url : string) (payload : list (string * pyval)) (headers : list (string * string))
  : M outcome :=
  do cur_url <- getenv "url" ;;
  run modify (fun w => set_cache (<[cur_url := S (cache_get w cur_url)]> (cache w)) w) ;;
  let req := {| req_url := url; req_json := payload; req_headers := headers |} in
  do rep <- (fun w => (Ok (requests_post (posted w) req), set_posted (posted w ++ [req])%list w)) ;;
  match rep with
  | NoReply msg => raise OtherError msg
  | Reply status_code json text =>
      if (400 <=? status_code) && (status_code <? 600)
      then ret (HttpFailure (default (PStr text) json) status_code)
      else
        match json with
        | None => ret (NonJson text)
        | Some data => handle_reply cur_url data
        end
  end.

(** [try: ... except Exception as e: return {"error": str(e)}]. *)
Definition catch_all (m : M outcome) : M outcome :=
  fun w =>
    match m w with
    | (Ok o, w') => (Ok o, w')
    | (Raise _ msg, w') => (Ok (Failure msg), w')
    end.

Definition post_request (url : string) (payload : list (string * pyval))
  (headers : option (list (string * string))) : M outcome :=
  do payload1 <- resolve_answer payload ;;
  do payload2 <- inject_secret payload1 ;;
  do rejected <- validate_url url ;;
  match rejected with
  | Some o => ret o
  | None =>
      let headers' := match headers with
                      | Some (h :: t) => h :: t
                      | _ => default_headers
                      end in
      catch_all (send url payload2 headers')
  end.

End PostRequest.

End SendRequest.

(** ** agent.py *)

Module Agent.
Import Py SendRequest.

Inductive msg_type : Type := system | human | ai | tool.

Record tool_call : Type := {
  tc_name : string;
  tc_args : list (string * string);
  tc_id : string;
}.

(** A turn of the conversation.  [content] is [str(msg.content)], and
    [content_is_str] tells whether [msg.content] is a str (it is a list of
    parts on some model turns); [name] is the tool's name on a tool-result
    turn. *)
Record message : Type := {
  mtype : msg_type;
  content : string;
  content_is_str : bool;
  tool_calls : list tool_call;
  name : option string;
}.

Definition HumanMessage (text : string) : message :=
  {| mtype := human; content := text; content_is_str := true; tool_calls := []; name := None |}.

(** *** [str(recent_messages)]

    The [str] of a list is the [repr] of its items between brackets, and the
    [repr] of a message is its class name followed by its fields, the
    content first, each shown by [repr].  The message classes are not part
    of the repository: what they show after the content (additional_kwargs,
    response_metadata, name, id, tool_calls, ...) is a parameter. *)

Definition class_name (t : msg_type) : string :=
  match t with
  | system => "SystemMessage"
  | human => "HumanMessage"
  | ai => "AIMessage"
  | tool => "ToolMessage"
  end.

Fixpoint join (sep : string) (l : list string) : string :=
  match l with
  | [] => ""
  | [x] => x
  | x :: rest => x +:+ sep +:+ join sep rest
  end.

Definition double_quote : ascii := ascii_of_N 34.
Definition backslash : ascii := ascii_of_N 92.

Definition hex_digit (n : N) : ascii :=
  if (n <? 10)%N then ascii_of_N (48 + n) else ascii_of_N (87 + n).

(** How [repr] shows one character of a str written between [quote]s: the
    quote and the backslash are escaped, and so are the control characters. *)
Definition repr_char (quote c : ascii) : string :=
  let n := N_of_ascii c in
  if Ascii.eqb c quote || Ascii.eqb c backslash then String backslash (String c "")
  else if (n =? 9)%N then String backslash "t"
  else if (n =? 10)%N then String backslash "n"
  else if (n =? 13)%N then String backslash "r"
  else if ((n <? 32) || (n =? 127))%N
  then String backslash (String "x" (String (hex_digit (n / 16)) (String (hex_digit (n mod 16)) "")))
  else String c "".

Fixpoint repr_body (quote : ascii) (s : string) : string :=
  match s with
  | EmptyString => EmptyString
  | String c rest => repr_char quote c +:+ repr_body quote rest
  end.

(** [repr(s)] on ASCII text: double quotes when [s] holds a single quote and
    no double quote, single quotes otherwise. *)
Definition repr_str (s : string) : string :=
  let quote := if contains "'" s && negb (contains (String double_quote "") s)
               then double_quote else "'"%char in
  String quote (repr_body quote s +:+ String quote "").

(** What the [repr] of a message shows between its content and the closing
    parenthesis. *)
Class Messages : Type := {
  other_fields : message -> string;
}.

Section Render.
Context {ms : Messages}.

(** The content field: the [repr] of a str; for a content that is no str,
    [content] is already its [repr]. *)
Definition render_content (m : message) : string :=
  if content_is_str m then repr_str (content m) else content m.

Definition render_message (m : message) : string :=
  class_name (mtype m) +:+ "(content=" +:+ render_content m +:+ other_fields m +:+ ")".

Definition render (msgs : list message) : string :=
  "[" +:+ join ", " (map render_message msgs) +:+ "]".

End Render.

(** *** The opening of a session

    [SYSTEM_PROMPT] (lines 55-99), an f-string over the module's [EMAIL] and
    [SECRET] as [str] shows them, and the [initial_messages] of
    [run_agent]. *)

Definition quoted (s : string) : string := String double_quote (s +:+ String double_quote "").

Definition SYSTEM_PROMPT (EMAIL SECRET : string) : string :=
  join (String (ascii_of_N 10) "")
    [""
     ; "You are an autonomous quiz-solving agent."
     ; "Your email: " +:+ EMAIL
     ; "Your secret: " +:+ SECRET
     ; ""
     ; "GENERAL BEHAVIOUR"
     ; "-----------------"
     ; "- Always start by calling get_rendered_html(url) on the current quiz URL."
     ; "- Use ONLY the tools provided."
     ; "- Never invent or guess new URLs. Only use:"
     ; "  * URLs you see in the HTML (links, script src, img src, etc.)"
     ; "  * URLs returned by the server responses (e.g. " +:+ quoted "url" +:+ " field)"
     ; "- Perform all non-trivial calculations using run_code, not in your head."
     ; ""
     ; "AUDIO WORKFLOW"
     ; "--------------"
     ; "If the HTML (or instructions) include an <audio> tag or an audio URL:"
     ; "  1. Use download_file(audio_url, " +:+ quoted "task.opus" +:+ ")"
     ; "  2. Use transcribe_audio(" +:+ quoted "task.opus" +:+ ")"
     ; "  3. The transcription will contain instructions. Follow them exactly."
     ; ""
     ; "IMAGE / OCR WORKFLOW"
     ; "--------------------"
     ; "If get_rendered_html(url) returns any image URLs in the " +:+ quoted "images" +:+ " list,"
     ; "OR the page clearly shows a puzzle image:"
     ; ""
     ; "  1. For each relevant image URL, call:"
     ; "       download_file(image_url, " +:+ quoted "task_image.png" +:+ ")"
     ; "  2. Then call:"
     ; "       ocr_image_tool(image_path=" +:+ quoted "task_image.png" +:+ ")"
     ; "  3. Read the extracted text carefully. It may contain:"
     ; "       - The puzzle statement"
     ; "       - Hidden instructions"
     ; "       - Formulas or constraints"
     ; "  4. Follow those instructions using the other tools."
     ; ""
     ; "You MUST NOT ignore images. Any time an image is downloaded, it should be OCR'd."
     ; ""
     ; "ANSWER SUBMISSION"
     ; "-----------------"
     ; "To submit an answer, you must call post_request with a payload that includes:"
     ; "  - " +:+ quoted "answer" +:+ ": the computed answer (string or number)"
     ; "  - " +:+ quoted "email" +:+ ": " +:+ EMAIL
     ; "  - " +:+ quoted "url" +:+ ": the quiz page URL you are answering for"
     ; ""].

Definition SystemMessage (text : string) : message :=
  {| mtype := system; content := text; content_is_str := true; tool_calls := []; name := None |}.

(** Lines 236-239. *)
Definition initial_messages (EMAIL SECRET url : string) : list message :=
  [SystemMessage (SYSTEM_PROMPT EMAIL SECRET); HumanMessage url].

(** *** The two download patterns

    [re.search(r'Downloaded file to:.*?([\w-]+\.(e1|e2|...))', content)],
    returning group 1.  On ASCII text a word character is a letter, a digit
    or the underscore. *)

Definition is_word (c : ascii) : bool :=
  let n := N_of_ascii c in
  (((48 <=? n) && (n <=? 57)) || ((65 <=? n) && (n <=? 90))
   || ((97 <=? n) && (n <=? 122)) || (n =? 95) || (n =? 45))%N.

(** The longest prefix matched by [[\w-]*], and what follows it. *)
Fixpoint take_word (s : string) : string * string :=
  match s with
  | EmptyString => (EmptyString, EmptyString)
  | String c rest =>
      if is_word c then let '(w, r) := take_word rest in (String c w, r)
      else (EmptyString, s)
  end.

(** [([\w-]+\.(e1|e2|...))] anchored at the head of [s].  The dot is no word
    character, so only the longest run can be followed by it; the
    alternatives are tried in order. *)
Definition match_name (exts : list string) (s : string) : option string :=
  match take_word s with
  | (String c w, String "." rest) =>
      option_map (fun e => String c w +:+ "." +:+ e) (find (fun e => String.prefix e rest) exts)
  | _ => None
  end.

Definition newline : ascii := ascii_of_N 10.

(** [.*?] followed by the name: the first position of the line at which the
    name matches ([.] does not cross a newline). *)
Fixpoint match_tail (exts : list string) (s : string) : option string :=
  match match_name exts s with
  | Some f => Some f
  | None =>
      match s with
      | EmptyString => None
      | String c rest => if Ascii.eqb c newline then None else match_tail exts rest
      end
  end.

Definition marker : string := "Downloaded file to:".

(** [re.search]: the leftmost occurrence of the marker after which the rest
    of the pattern matches. *)
Fixpoint re_search (exts : list string) (s : string) : option string :=
  let here :=
    if String.prefix marker s
    then match_tail exts (String.substring (String.length marker)
                            (String.length s - String.length marker) s)
    else None in
  match here with
  | Some f => Some f
  | None =>
      match s with
      | EmptyString => None
      | String _ rest => re_search exts rest
      end
  end.

Definition audio_exts : list string := ["opus"; "mp3"; "wav"; "ogg"].
Definition image_exts : list string := ["png"; "jpg"; "jpeg"; "bmp"].

(** [l[-n:]]. *)
Definition last_n {A : Type} (n : nat) (l : list A) : list A := skipn (length l - n) l.

(** The [for msg in recent_messages] loop, for one of the two patterns: a
    later match overwrites an earlier one.  Group 1 holds no blank, so
    [.strip()] returns it unchanged. *)
Definition last_download (exts : list string) (msgs : list message) : option string :=
  fold_left (fun found m =>
               match re_search exts (content m) with
               | Some f => Some f
               | None => found
               end) msgs None.

(** [os.path.basename]: what follows the last slash. *)
Fixpoint basename (p : string) : string :=
  match p with
  | EmptyString => EmptyString
  | String c rest => if contains "/" rest then basename rest
                     else if Ascii.eqb c "/" then rest else p
  end.

(** Lines 146-190: the forced tool call, if any.  [uid] is
    [uuid.uuid4().hex[:8]]. *)
Definition forced_call {ms : Messages} (uid : string) (trimmed_messages : list message)
  : option tool_call :=
  let recent_messages := last_n 15 trimmed_messages in
  let msg_str := render recent_messages in
  let transcribed_audio := contains "transcribe_audio" msg_str in
  let ocr_run := contains "ocr_image_tool" msg_str in
  let downloaded_audio := last_download audio_exts recent_messages in
  let downloaded_image := last_download image_exts recent_messages in
  if truthy (opt_str downloaded_audio) && negb transcribed_audio
  then Some {| tc_name := "transcribe_audio";
               tc_args := [("file_path", default "" downloaded_audio)];
               tc_id := "force_audio_" +:+ uid |}
  else if truthy (opt_str downloaded_image) && negb ocr_run
  then
    let image := default "" downloaded_image in
    let image := if contains "LLMFiles" image then basename image else image in
    Some {| tc_name := "ocr_image_tool";
            tc_args := [("image_path", image)];
            tc_id := "force_ocr_" +:+ uid |}
  else None.

(** *** The decision turn *)

(** What [agent_node] does on a turn: which prompt it sends to the model, or
    which tool call it synthesises without the model. *)
Inductive turn : Type :=
| TimeoutEscape (prompt : list message)
| Forced (call : tool_call)
| Invoke (prompt : list message).

Definition fail_msg : message :=
  HumanMessage "You have exceeded the time limit. Submit a WRONG answer immediately to proceed.".

Section AgentNode.
Context {rt : Runtime} {ms : Messages}.

Variable time_time : nat -> float.

(** [trim_messages(messages=..., max_tokens=MAX_TOKENS, strategy="last",
    include_system=True, start_on="human", token_counter=llm)]. *)
Variable trim_messages : list message -> list message.

(** [uuid.uuid4().hex[:8]], per state of the process. *)
Variable uuid8 : world -> string.

Definition is_human (m : message) : bool :=
  match mtype m with
  | human => true
  | _ => false
  end.

(** Lines 133-194. *)
Definition normal_turn (messages : list message) : M turn :=
  let trimmed_messages := trim_messages messages in
  do trimmed_messages <-
    (if negb (existsb is_human trimmed_messages)
     then
       do current_url <- getenv "url" ;;
       ret (trimmed_messages ++
              [HumanMessage ("Context cleared. Continue processing URL: "
                             +:+ default "Unknown URL" current_url)])%list
     else ret trimmed_messages) ;;
  do uid <- gets uuid8 ;;
  match forced_call uid trimmed_messages with
  | Some call => ret (Forced call)
  | None => ret (Invoke trimmed_messages)
  end.

(** Line 126, evaluated left to right with Python's short-circuit [or] and [and]. *)
Definition timeout_check (cur_time prev_time : float) (offset : string) : res bool :=
  let diff := PrimFloat.sub cur_time prev_time in
  if PrimFloat.leb 180 diff then Ok true
  else if negb (String.eqb offset "0")
       then bind (py_float (PStr offset)) (fun o => Ok (PrimFloat.ltb 90 (PrimFloat.sub cur_time o)))
       else Ok false.

(** Lines 116-131, then the rest of the function. *)
Definition agent_node (messages : list message) : M turn :=
  do cur_time <- now time_time ;;
  do cur_url <- getenv "url" ;;
  do prev_time <- gets (fun w => url_time w !! (match cur_url with Some u => KStr u | None => KNone end)) ;;
  do offset <- (do o <- getenv "offset" ;; ret (default "0" o)) ;;
  match prev_time with
  | Some prev =>
      do timed_out <- lift (timeout_check cur_time prev offset) ;;
      if timed_out then ret (TimeoutEscape (messages ++ [fail_msg])%list)
      else normal_turn messages
  | None => normal_turn messages
  end.

End AgentNode.

End Agent.

(** ** A small runtime for evaluating examples

    [Ref.runtime] agrees with CPython on plain decimal numerals
    ([-12], [40], [2.5]); it rejects the other spellings CPython accepts
    (exponents, [inf], [nan], surrounding blanks), and is used only to run
    the definitions on concrete inputs.  [Ref.csv_reader] follows the state
    machine of the [csv] module for the default dialect.  [Ref.urlparse]
    follows [urllib.parse.urlsplit] on the scheme and the network location
    of plain URLs.  [Ref.messages] shows the name and the tool calls of a
    turn the way langchain-core does. *)

Module Ref.
Import Py SendRequest Agent.

(** [s.split(sep)]. *)
Fixpoint split_all (fuel : nat) (sep : ascii) (s : string) : list string :=
  match fuel with
  | O => [s]
  | S fuel' =>
      match split_once sep s with
      | (a, None) => [a]
      | (a, Some rest) => a :: split_all fuel' sep rest
      end
  end.

Definition digits (s : string) : option Z :=
  match s with
  | EmptyString => None
  | _ => option_map Z.of_uint (NilEmpty.uint_of_string s)
  end.

Definition int_of_str (s : string) : option Z :=
  match s with
  | String "-" rest => option_map Z.opp (digits rest)
  | _ => digits s
  end.

Definition unsigned_float (s : string) : option float :=
  match split_once "." s with
  | (ip, None) => option_map float_of_Z (digits ip)
  | (ip, Some fp) =>
      match digits (ip +:+ fp), NilEmpty.uint_of_string ip, NilEmpty.uint_of_string fp with
      | Some n, Some _, Some _ =>
          Some (PrimFloat.div (float_of_Z n) (float_of_Z (10 ^ Z.of_nat (String.length fp))))
      | _, _, _ => None
      end
  end.

Definition float_of_str (s : string) : option float :=
  match s with
  | String "-" rest => option_map PrimFloat.opp (unsigned_float rest)
  | _ => unsigned_float s
  end.

Definition string_of_Z (z : Z) : string := NilZero.string_of_int (Z.to_int z).

(** [str(v)] for None, booleans, ints and the floats that are whole numbers
    below 10^16 (printed with a trailing [.0]); the other values are shown by
    a placeholder. *)
Definition py_repr (v : pyval) : string :=
  match v with
  | PNone => "None"
  | PBool true => "True"
  | PBool false => "False"
  | PInt z => string_of_Z z
  | PFloat f =>
      match int_of_float f with
      | Ok z =>
          if PrimFloat.eqb (float_of_Z z) f && (Z.abs z <? 10 ^ 16)
          then string_of_Z z +:+ ".0"
          else "<float>"
      | Raise _ _ => "<float>"
      end
  | PStr s => s
  | PList _ => "<list>"
  | PDict _ => "<dict>"
  end.

Definition newline : ascii := ascii_of_N 10.
Definition carriage_return : ascii := ascii_of_N 13.

(** *** [csv.reader], default dialect: comma, double quote, doubled quotes
    inside quoted fields, no escape character, not strict *)

Inductive csv_state : Type :=
| START_RECORD | START_FIELD | IN_FIELD | IN_QUOTED_FIELD | QUOTE_IN_QUOTED_FIELD | EAT_CRNL.

Record csv_parser : Type := {
  state : csv_state;
  field : string;
  field_len : N;
  fields : list string;
}.

Definition parse_reset : csv_parser :=
  {| state := START_RECORD; field := ""; field_len := 0; fields := [] |}.

Definition field_limit : N := 131072.

Definition set_state (st : csv_state) (p : csv_parser) : csv_parser :=
  {| state := st; field := field p; field_len := field_len p; fields := fields p |}.

Definition parse_add_char (st : csv_state) (c : ascii) (p : csv_parser) : res csv_parser :=
  if (field_limit <=? field_len p)%N
  then Raise CsvError "field larger than field limit (131072)"
  else Ok {| state := st; field := field p +:+ String c ""; field_len := field_len p + 1;
             fields := fields p |}.

Definition parse_save_field (st : csv_state) (p : csv_parser) : csv_parser :=
  {| state := st; field := ""; field_len := 0; fields := (fields p ++ [field p])%list |}.

Definition is_eol (c : ascii) : bool := Ascii.eqb c newline || Ascii.eqb c carriage_return.

(** One character of a line; [None] is the end of the line. *)
Definition parse_process_char (p : csv_parser) (c : option ascii) : res csv_parser :=
  let start_field (c : option ascii) :=
    match c with
    | None => Ok (parse_save_field START_RECORD p)
    | Some c =>
        if is_eol c then Ok (parse_save_field EAT_CRNL p)
        else if Ascii.eqb c double_quote then Ok (set_state IN_QUOTED_FIELD p)
        else if Ascii.eqb c "," then Ok (parse_save_field START_FIELD p)
        else parse_add_char IN_FIELD c p
    end in
  match state p with
  | START_RECORD =>
      match c with
      | None => Ok p
      | Some c' => if is_eol c' then Ok (set_state EAT_CRNL p) else start_field c
      end
  | START_FIELD => start_field c
  | IN_FIELD =>
      match c with
      | None => Ok (parse_save_field START_RECORD p)
      | Some c =>
          if is_eol c then Ok (parse_save_field EAT_CRNL p)
          else if Ascii.eqb c "," then Ok (parse_save_field START_FIELD p)
          else parse_add_char IN_FIELD c p
      end
  | IN_QUOTED_FIELD =>
      match c with
      | None => Ok p
      | Some c =>
          if Ascii.eqb c double_quote then Ok (set_state QUOTE_IN_QUOTED_FIELD p)
          else parse_add_char IN_QUOTED_FIELD c p
      end
  | QUOTE_IN_QUOTED_FIELD =>
      match c with
      | None => Ok (parse_save_field START_RECORD p)
      | Some c =>
          if Ascii.eqb c double_quote then parse_add_char IN_QUOTED_FIELD c p
          else if Ascii.eqb c "," then Ok (parse_save_field START_FIELD p)
          else if is_eol c then Ok (parse_save_field EAT_CRNL p)
          else parse_add_char IN_FIELD c p
      end
  | EAT_CRNL =>
      match c with
      | None => Ok (set_state START_RECORD p)
      | Some c =>
          if is_eol c then Ok p
          else Raise CsvError
                 "new-line character seen in unquoted field - do you need to open the file in universal-newline mode?"
      end
  end.

(** The end of a line: a record is complete when the parser is back at
    [START_RECORD]. *)
Definition end_of_line (p : csv_parser) (rows : list (list string))
  : res (csv_parser * list (list string)) :=
  bind (parse_process_char p None) (fun p =>
  match state p with
  | START_RECORD => Ok (parse_reset, (rows ++ [fields p])%list)
  | _ => Ok (p, rows)
  end).

(** The lines of [StringIO(text)] end at each newline; [mid_line] tells
    whether characters were read since the last one. *)
Fixpoint parse_rows (p : csv_parser) (rows : list (list string)) (mid_line : bool) (text : string)
  : res (list (list string)) :=
  match text with
  | EmptyString =>
      bind (if mid_line then end_of_line p rows else Ok (p, rows)) (fun '(p, rows) =>
      match state p with
      | IN_QUOTED_FIELD => Ok (rows ++ [fields (parse_save_field START_RECORD p)])%list
      | _ => Ok rows
      end)
  | String c rest =>
      bind (parse_process_char p (Some c)) (fun p =>
      if Ascii.eqb c newline
      then bind (end_of_line p rows) (fun '(p, rows) => parse_rows p rows false rest)
      else parse_rows p rows true rest)
  end.

Definition csv_reader (text : string) : list (list string) + string :=
  match parse_rows parse_reset [] false text with
  | Ok rows => inl rows
  | Raise _ msg => inr msg
  end.

Lemma has_nul_app (a b : string) : has_nul (a +:+ b) = has_nul a || has_nul b.
Proof.
  induction a as [|c a IH]; [reflexivity|].
  change (String c a +:+ b) with (String c (a +:+ b)). simpl.
  now rewrite IH, orb_assoc.
Qed.

Lemma string_of_Z_no_nul (z : Z) : has_nul (string_of_Z z) = false.
Proof.
  unfold string_of_Z, NilZero.string_of_int.
  assert (H : forall d, has_nul (NilZero.string_of_uint d) = false).
  { intros d. assert (H0 : has_nul (NilEmpty.string_of_uint d) = false)
      by (induction d; simpl; auto).
    destruct d; first [exact H0 | reflexivity]. }
  destruct (Z.to_int z); simpl; now rewrite ?H.
Qed.

Lemma float_repr_no_nul (f : float) : has_nul (py_repr (PFloat f)) = false.
Proof.
  unfold py_repr.
  destruct (int_of_float f) as [z|]; [|reflexivity].
  destruct (_ && _); [|reflexivity].
  now rewrite has_nul_app, string_of_Z_no_nul.
Qed.

#[export] Instance runtime : Runtime := {|
  Py.float_of_str := float_of_str;
  Py.int_of_str := int_of_str;
  Py.py_repr := py_repr;
  Py.csv_reader := csv_reader;
  Py.float_repr_no_nul := float_repr_no_nul;
|}.

(** *** The fields of a message after its content *)

Fixpoint join_with (sep : string) (l : list string) : string :=
  match l with
  | [] => ""
  | [x] => x
  | x :: rest => x +:+ sep +:+ join_with sep rest
  end.

Definition show_arg (kv : string * string) : string :=
  repr_str kv.1 +:+ ": " +:+ repr_str kv.2.

Definition show_call (c : tool_call) : string :=
  "{'name': " +:+ repr_str (tc_name c) +:+ ", 'args': {"
  +:+ join_with ", " (map show_arg (tc_args c))
  +:+ "}, 'id': " +:+ repr_str (tc_id c) +:+ ", 'type': 'tool_call'}".

(** The fields that differ from their defaults are shown: the name of a
    tool result, the tool calls of a model turn.  Identifiers and usage
    metadata, which hold no tool name, are left out. *)
Definition show_fields (m : message) : string :=
  ", additional_kwargs={}, response_metadata={}"
  +:+ match name m with
      | Some n => ", name=" +:+ repr_str n
      | None => ""
      end
  +:+ match tool_calls m with
      | [] => ""
      | calls => ", tool_calls=[" +:+ join_with ", " (map show_call calls) +:+ "]"
      end.

#[export] Instance messages : Messages := {| other_fields := show_fields |}.

Definition is_alpha (c : ascii) : bool :=
  let n := N_of_ascii c in
  (((65 <=? n) && (n <=? 90)) || ((97 <=? n) && (n <=? 122)))%N.

Definition is_scheme_char (c : ascii) : bool :=
  let n := N_of_ascii c in
  (is_alpha c || ((48 <=? n) && (n <=? 57)) || (n =? 43) || (n =? 45) || (n =? 46))%N.

(** The prefix of [s] before the first of [/], [?] and [#]. *)
Fixpoint netloc_of (s : string) : string :=
  match s with
  | EmptyString => EmptyString
  | String c rest =>
      if Ascii.eqb c "/" || Ascii.eqb c "?" || Ascii.eqb c "#" then EmptyString
      else String c (netloc_of rest)
  end.

Definition urlparse (url : string) : res (string * string) :=
  let '(scheme, rest) :=
    match split_once ":" url with
    | (String c s, Some rest) =>
        if is_alpha c && forallb is_scheme_char (list_ascii_of_string (String c s))
        then (lower (String c s), rest)
        else ("", url)
    | _ => ("", url)
    end in
  if String.prefix "//" rest then
    let netloc := netloc_of (String.substring 2 (String.length rest - 2) rest) in
    if xorb (contains "[" netloc) (contains "]" netloc)
    then Raise ValueError "Invalid IPv6 URL"
    else Ok (scheme, netloc)
  else Ok (scheme, "").

(** A clock that advances by one second per reading, from 1000.0. *)
Definition time_time (n : nat) : float := float_of_Z (1000 + Z.of_nat n).

(** A process that has just started: nothing recorded, SECRET configured. *)
Definition fresh (env : gmap string string) : world :=
  {| cache := ∅; url_time := ∅; environ := env; BASE64_STORE := ∅;
     SECRET := Some "s3cret"; ticks := 0; posted := [] |}.


(** No server at all: every request fails to connect. *)
Definition unreachable : list request -> request -> reply :=
  fun _ _ => NoReply "connection refused".

End Ref.

(** ** String methods used by the remaining tools *)

Module PyStr.
Import Py.

(** [c.isspace()] on ASCII text. *)
Definition is_space (c : ascii) : bool :=
  let n := N_of_ascii c in
  (((9 <=? n) && (n <=? 13)) || ((28 <=? n) && (n <=? 32)))%N.

Definition is_backtick (c : ascii) : bool := Ascii.eqb c "`".

Fixpoint lstrip_with (p : ascii -> bool) (s : string) : string :=
  match s with
  | EmptyString => EmptyString
  | String c rest => if p c then lstrip_with p rest else s
  end.

Fixpoint rstrip_with (p : ascii -> bool) (s : string) : string :=
  match s with
  | EmptyString => EmptyString
  | String c rest =>
      match rstrip_with p rest with
      | EmptyString => if p c then EmptyString else String c EmptyString
      | kept => String c kept
      end
  end.

(** [s.strip()], [s.lstrip()] and [s.strip("`")]. *)
Definition strip (s : string) : string := rstrip_with is_space (lstrip_with is_space s).
Definition lstrip (s : string) : string := lstrip_with is_space s.
Definition strip_backticks (s : string) : string :=
  rstrip_with is_backtick (lstrip_with is_backtick s).

(** [s.endswith(suffix)]. *)
Fixpoint endswith (suffix s : string) : bool :=
  String.eqb suffix s ||
  match s with
  | EmptyString => false
  | String _ rest => endswith suffix rest
  end.

(** [s[:n]] and [s[n:]]. *)
Fixpoint take (n : nat) (s : string) : string :=
  match n, s with
  | S n', String c rest => String c (take n' rest)
  | _, _ => EmptyString
  end.

Fixpoint drop (n : nat) (s : string) : string :=
  match n, s with
  | S n', String _ rest => drop n' rest
  | _, _ => s
  end.

Definition newline : ascii := ascii_of_N 10.

(** [s.split("\n", 1)[1]]: IndexError when [s] has no newline. *)
Definition after_first_newline (s : string) : res string :=
  match snd (split_once newline s) with
  | Some rest => Ok rest
  | None => Raise IndexError "list index out of range"
  end.

(** What precedes the last newline of [s], if it has one. *)
Fixpoint before_last_newline (s : string) : option string :=
  match s with
  | EmptyString => None
  | String c rest =>
      match before_last_newline rest with
      | Some kept => Some (String c kept)
      | None => if Ascii.eqb c newline then Some EmptyString else None
      end
  end.

(** [s.rsplit("\n", 1)[0]]. *)
Definition rsplit_head (s : string) : string := default s (before_last_newline s).

End PyStr.

(** ** tools/run_code.py *)

Module RunCode.
Import Py PyStr.

Definition fence : string := "```".

Definition strip_code_fences (code : string) : res string :=
  let code := strip code in
  bind (if String.prefix fence code then after_first_newline code else Ok code) (fun code =>
  let code := if endswith fence code then rsplit_head code else code in
  Ok (strip code)).

(** What running the written file gives: the steps before
    [proc.communicate()] raise, or the process ends with a return code and
    its two output streams. *)
Inductive run_result : Type :=
| Crashed (msg : string)
| Exited (returncode : Z) (stdout stderr : string).

Section RunCode.

(** Writing LLMFiles/runner.py and running [uv run runner.py] on it. *)
Variable uv_run : string -> run_result.

Definition run_code (code : string) : string :=
  match uv_run code with
  | Crashed msg => "Exception: " +:+ msg
  | Exited returncode stdout stderr =>
      if negb (returncode =? 0) || negb (String.eqb stderr "")
      then
        let error_msg := if negb (String.eqb stderr "") then stderr else "Unknown error" in
        "Error executing code: " +:+ take (Z.to_nat 500) error_msg
      else if 10000 <=? Z.of_nat (String.length stdout)
           then take (Z.to_nat 10000) stdout +:+ "...truncated"
           else strip stdout
  end.

End RunCode.

End RunCode.

(** ** tools/interpret_instruction.py *)

Module InterpretInstruction.
Import Py PyStr.

(** Lines 72-77: the text handed to [json.loads]. *)
Definition unfence (content : string) : string :=
  let content_str := strip content in
  if String.prefix "```" content_str then
    let content_str := strip_backticks content_str in
    if String.prefix "json" (lower content_str)
    then lstrip (drop 4 content_str)
    else content_str
  else content_str.

Definition error_payload (reason raw : string) : list (string * pyval) :=
  [("error", PStr "could_not_parse_json"); ("reason", PStr reason); ("raw", PStr raw)].

Section Interpret.

(** [str(llm.invoke(msg).content)] for a user message; the call is outside
    the [try] block and may raise. *)
Variable llm_content : string -> res string.

(** [json.loads]; it raises on text that is not JSON. *)
Variable json_loads : string -> res pyval.

Definition user_content (text : string) (context : option string) : string :=
  "Instruction:" +:+ String newline text +:+ String newline (String newline "Context:")
  +:+ String newline (match context with
                      | Some c => c
                      | None => ""
                      end).

(** Lines 79-91. *)
Definition parse_content (content : string) : list (string * pyval) :=
  let content_str := unfence content in
  match json_loads content_str with
  | Ok (PDict data) => data
  | Ok _ => error_payload "Top-level JSON is not an object" content_str
  | Raise _ msg => error_payload msg content_str
  end.

Definition interpret_instruction (text : string) (context : option string)
  : res (list (string * pyval)) :=
  bind (llm_content (user_content text context)) (fun content => Ok (parse_content content)).

End Interpret.

End InterpretInstruction.

(** ** tools/send_request.py: [get_request] *)

Module GetRequest.
Import Py SendRequest.

Section GetRequest.

Variable urlparse : string -> res (string * string).

(** [requests.get(url, headers=headers)]. *)
Variable requests_get : string -> list (string * string) -> reply.

Definition get_request (url : string) (headers : option (list (string * string))) : res pyval :=
  bind (urlparse url) (fun '(scheme, netloc) =>
  if String.eqb scheme "" || String.eqb netloc "" then Ok (PDict (to_dict (InvalidURL url)))
  else if existsb (fun blocked => contains blocked url) blocked_domains
  then Ok (PDict (to_dict (PlaceholderURL url)))
  else
    let headers := match headers with
                   | Some (h :: t) => h :: t
                   | _ => default_headers
                   end in
    match requests_get url headers with
    | NoReply msg => Ok (PDict [("error", PStr msg)])
    | Reply status_code json text =>
        if (400 <=? status_code) && (status_code <? 600)
        then Ok (PDict [("error", default (PStr text) json); ("status_code", PInt status_code)])
        else Ok (default (PStr text) json)
    end).

End GetRequest.

End GetRequest.

(** ** agent.py: [handle_malformed_node], [route] and the edges of the graph *)

Module Route.
Import Py SendRequest Agent PyStr.

(** A turn as [route] sees it: the message and its [response_metadata]. *)
Record emitted : Type := {
  turn_message : message;
  response_metadata : list (string * pyval);
}.

(** [isinstance(content, str)] on the turn's content. *)
Definition content_is_str (last : emitted) : bool := Agent.content_is_str (turn_message last).

Inductive node : Type := START | agent | tools | handle_malformed | END.

Definition handle_malformed_node : message :=
  HumanMessage
    ("SYSTEM ERROR: Your last tool call had invalid JSON or malformed arguments. "
     +:+ "Please call the same tool again, but this time emit ONLY valid JSON.").

(** [v == s] for a str [s]. *)
Definition is_str (v : pyval) (s : string) : bool := py_eq_str s v.

Definition route_last (last : emitted) : node :=
  if match dict_get (response_metadata last) "finish_reason" with
     | Some reason => is_str reason "MALFORMED_FUNCTION_CALL"
     | None => false
     end
  then handle_malformed
  else match tool_calls (turn_message last) with
       | _ :: _ => tools
       | [] =>
           if content_is_str last && String.eqb (strip (content (turn_message last))) "END"
           then END
           else agent
       end.

(** [route(state)]: [state["messages"][-1]] raises on an empty list. *)
Definition route (messages : list emitted) : res node :=
  match last messages with
  | Some m => Ok (route_last m)
  | None => Raise IndexError "list index out of range"
  end.

(** The AIMessage that [agent_node] builds for a forced call. *)
Definition forced_message (call : tool_call) : emitted :=
  {| turn_message := {| mtype := ai; content := ""; Agent.content_is_str := true;
                        tool_calls := [call]; name := None |};
     response_metadata := [] |}.

(** The edges of the graph: where control goes after a node has run on
    [messages] ([END] has no outgoing edge). *)
Definition next_node (current : node) (messages : list emitted) : res node :=
  match current with
  | START => Ok agent
  | tools => Ok agent
  | handle_malformed => Ok agent
  | agent => route messages
  | END => Ok END
  end.

End Route.

(** ** tools/audio_transcribing.py and tools/image_content_extracter.py *)

Module LocalFiles.
Import Py PyStr.

(** [os.path.join(a, b)] on POSIX. *)
Definition path_join (a b : string) : string :=
  if String.prefix "/" b then b
  else if String.eqb a "" || endswith "/" a then a +:+ b
  else a +:+ "/" +:+ b.

(** The path normalisation that opens both tools. *)
Definition in_llmfiles (path : string) : string :=
  if negb (String.prefix "LLMFiles" path) then path_join "LLMFiles" path else path.

Section Tools.

(** [os.path.exists]. *)
Variable path_exists : string -> bool.

(** Lines 38-63 of audio_transcribing.py: conversion to WAV and speech
    recognition of the file at a path. *)
Variable recognize : string -> res string.

(** Lines 34-58 of image_content_extracter.py: [response.text] of the
    vision model for the file at a path. *)
Variable generate_content : string -> res string.

Definition transcribe_audio (file_path : string) : string :=
  let file_path := in_llmfiles file_path in
  if negb (path_exists file_path) then "Error: File not found at " +:+ file_path
  else match recognize file_path with
       | Ok text => text
       | Raise _ msg => "Error transcribing audio: " +:+ msg
       end.

Definition ocr_image_tool (image_path : string) : string :=
  let full_path := in_llmfiles image_path in
  if negb (path_exists full_path) then "Error: Image file not found at " +:+ full_path
  else match generate_content full_path with
       | Ok text => strip text
       | Raise _ msg => "Error during AI Image Analysis: " +:+ msg
       end.

End Tools.

End LocalFiles.

(** * Properties *)

(** ** The tabular executor *)

Module ProcessCsvSpec.
Import Py ProcessCsv.

(** The rows and the descriptor of the worked example. *)
Definition example_rows : list (list string) := [["1"; "100"]; ["2"; "40"]; ["x"; "bad"]].

Definition example_text : string :=
  "1,100" +:+ String Ref.newline "2,40" +:+ String Ref.newline "x,bad".

Definition example_ops : list (string * pyval) :=
  [("operation", PStr "sum"); ("column", PInt 1);
   ("filters", PList [PDict [("column", PInt 0); ("op", PStr ">"); ("value", PInt 1)]])].

Section Facts.
Context {rt : Runtime}.

Lemma row_step_matched (col_idx : Z) (filters : list pyval) (a : acc) (row : list string) :
  rows_matched a = length (values a) ->
  rows_matched (row_step col_idx filters a row) = length (values (row_step col_idx filters a row)).
Proof.
  intros Ha. unfold row_step.
  destruct row as [|c cs]; [exact Ha|].
  destruct (Z.of_nat (length (c :: cs)) <=? col_idx); [exact Ha|].
  destruct (row_floats (c :: cs)) as [row_vals|]; [|exact Ha].
  destruct (_apply_filters row_vals filters); simpl; [|exact Ha].
  destruct (py_index row_vals col_idx); [|exact Ha].
  simpl. rewrite length_app. simpl. lia.
Qed.

Lemma fold_row_step_matched (col_idx : Z) (filters : list pyval) (rows : list (list string)) :
  forall a : acc,
    rows_matched a = length (values a) ->
    rows_matched (fold_left (row_step col_idx filters) rows a)
    = length (values (fold_left (row_step col_idx filters) rows a)).
Proof.
  induction rows as [|row rows IH]; intros a Ha; simpl.
  - exact Ha.
  - apply IH. now apply row_step_matched.
Qed.

(** [rows_matched] counts exactly the values collected. *)
Lemma scan_rows_matched (col_idx : Z) (filters : list pyval) (rows : list (list string)) :
  rows_matched (scan_rows col_idx filters rows) = length (values (scan_rows col_idx filters rows)).
Proof. unfold scan_rows. now apply fold_row_step_matched. Qed.

(** The aggregation block never raises: the division is reached only with a
    non-empty list. *)
Lemma aggregate_returns (op_name : string) (vs : list float) :
  exists r, aggregate op_name vs = Ok r.
Proof.
  destruct vs as [|v0 rest]; simpl; [eauto|].
  repeat match goal with
         | |- context [if ?b then _ else _] => destruct b; eauto
         end.
Qed.

Lemma aggregate_nil (op_name : string) : aggregate op_name [] = Ok (PInt 0).
Proof. reflexivity. Qed.

(** Once the target column is coerced and the reader has yielded its rows,
    [process_csv] returns its five fields whatever the rows, the operation
    name and the filters are. *)
Lemma process_csv_returns (csv_text : string) (operations : list (string * pyval)) (col_idx : Z)
  (rows : list (list string)) :
  py_int (dict_get_or operations "column" (PInt 0)) = Ok col_idx ->
  csv_reader csv_text = inl rows ->
  let a := scan_rows col_idx (read_filters operations) rows in
  exists result,
    aggregate (lower (py_str (dict_get_or operations "operation" (PStr "sum")))) (values a) = Ok result /\
    process_csv csv_text operations =
      Ok [("result", result);
          ("rows_matched", PInt (Z.of_nat (length (values a))));
          ("operation", PStr (lower (py_str (dict_get_or operations "operation" (PStr "sum")))));
          ("column", PInt col_idx);
          ("filters", PList (read_filters operations))].
Proof.
  intros Hcol Hrows a.
  destruct (aggregate_returns
              (lower (py_str (dict_get_or operations "operation" (PStr "sum")))) (values a))
    as [result Hres].
  exists result. split; [exact Hres|].
  unfold process_csv, read_rows. rewrite Hcol, Hrows. simpl. fold a. rewrite Hres. simpl.
  unfold a. now rewrite scan_rows_matched.
Qed.

(** The two calls of [process_csv] that are outside every [try] block: the
    coercion of the column and the reading of the rows. *)
Lemma process_csv_raises (csv_text : string) (operations : list (string * pyval))
  (k : exn_kind) (msg : string) :
  process_csv csv_text operations = Raise k msg ->
  py_int (dict_get_or operations "column" (PInt 0)) = Raise k msg \/
  (k = CsvError /\ csv_reader csv_text = inr msg).
Proof.
  destruct (py_int (dict_get_or operations "column" (PInt 0))) as [col_idx|k' msg'] eqn:Hcol.
  - destruct (csv_reader csv_text) as [rows|msg'] eqn:Hrows.
    + destruct (process_csv_returns csv_text operations col_idx rows Hcol Hrows)
        as (result & _ & Hout).
      rewrite Hout. discriminate.
    + unfold process_csv, read_rows. rewrite Hcol, Hrows. simpl.
      intros [= <- <-]. right. split; reflexivity.
  - unfold process_csv. rewrite Hcol. simpl. intros [= <- <-]. now left.
Qed.

Lemma py_int_not_zero_division (v : pyval) : ~ raised ZeroDivisionError (py_int v).
Proof.
  destruct v; simpl; try discriminate; try tauto.
  - unfold int_of_float. destruct (Prim2SF f); simpl; try discriminate; tauto.
  - destruct (int_of_str s); simpl; [tauto | discriminate].
Qed.

Lemma process_csv_not_zero_division (csv_text : string) (operations : list (string * pyval)) :
  ~ raised ZeroDivisionError (process_csv csv_text operations).
Proof.
  destruct (process_csv csv_text operations) as [out|k msg] eqn:Hrun; simpl; [tauto|].
  destruct (process_csv_raises _ _ _ _ Hrun) as [Hcol | [-> _]]; [|discriminate].
  pose proof (py_int_not_zero_division (dict_get_or operations "column" (PInt 0))) as Hk.
  now rewrite Hcol in Hk.
Qed.

(** A call in which no value was collected returns result 0, whatever the
    operation name. *)
Lemma process_csv_no_values (csv_text : string) (operations : list (string * pyval))
  (col_idx : Z) (rows : list (list string)) :
  py_int (dict_get_or operations "column" (PInt 0)) = Ok col_idx ->
  csv_reader csv_text = inl rows ->
  values (scan_rows col_idx (read_filters operations) rows) = [] ->
  process_csv csv_text operations =
    Ok [("result", PInt 0); ("rows_matched", PInt 0);
        ("operation", PStr (lower (py_str (dict_get_or operations "operation" (PStr "sum")))));
        ("column", PInt col_idx);
        ("filters", PList (read_filters operations))].
Proof.
  intros Hcol Hrows Hempty.
  destruct (process_csv_returns csv_text operations col_idx rows Hcol Hrows)
    as (result & Hagg & Hout).
  rewrite Hempty in Hagg, Hout. rewrite aggregate_nil in Hagg.
  injection Hagg as <-. exact Hout.
Qed.

(** A [filters] field that is not a list is read as no filter at all. *)
Lemma read_filters_not_list (operations : list (string * pyval)) (v : pyval) :
  dict_get operations "filters" = Some v ->
  (forall l, v <> PList l) ->
  read_filters operations = [].
Proof.
  intros Hget Hv. unfold read_filters, dict_get_or. rewrite Hget.
  destruct v; try reflexivity. now destruct (Hv l).
Qed.

(** An operation name outside the known ones aggregates as [sum]. *)
Lemma aggregate_unknown (op_name : string) (vs : list float) :
  is_in op_name ["sum"; "total"; "count"; "max"; "min"; "avg"; "average"; "mean"] = false ->
  aggregate op_name vs = aggregate "sum" vs.
Proof.
  intros H. unfold is_in in H. simpl in H.
  repeat (apply orb_false_elim in H; destruct H as [? H]).
  destruct vs as [|v0 rest]; [reflexivity|].
  unfold aggregate, is_in. simpl existsb.
  repeat match goal with
         | E : String.eqb op_name _ = false |- _ => rewrite E; clear E
         end.
  reflexivity.
Qed.

(** C7 (amended): on the rows [["1","100"],["2","40"],["x","bad"]] with the
    descriptor {operation: "sum", column: 1, filters: [{column: 0, op: ">",
    value: 1}]} the executor returns result 40.0 and rows_matched 1: the row
    ["1","100"] fails the filter (1 > 1 is false), the row ["2","40"] passes and
    contributes 40, and the row ["x","bad"] is unusable. *)
Theorem example_sum_is_40 (csv_text : string) :
  csv_reader csv_text = inl example_rows ->
  float_of_str "1" = Some 1%float ->
  float_of_str "100" = Some 100%float ->
  float_of_str "2" = Some 2%float ->
  float_of_str "40" = Some 40%float ->
  float_of_str "x" = None ->
  process_csv csv_text example_ops =
    Ok [("result", PFloat 40); ("rows_matched", PInt 1); ("operation", PStr "sum");
        ("column", PInt 1);
        ("filters", PList [PDict [("column", PInt 0); ("op", PStr ">"); ("value", PInt 1)]])].
Proof.
  intros Hrows H1 H100 H2 H40 Hx.
  unfold process_csv, read_rows, example_ops. simpl.
  rewrite Hrows. unfold example_rows, scan_rows, read_filters. simpl.
  rewrite H1, H100, H2, H40, Hx. simpl.
  reflexivity.
Qed.

(** C9 (failing input): a descriptor whose [column] is null makes
    [process_csv] raise TypeError at [int(operations.get("column", 0))], before
    any row is read, instead of returning its five-field dict. *)
Theorem null_column_raises (csv_text : string) :
  raised TypeError
    (process_csv csv_text [("operation", PStr "sum"); ("column", PNone); ("filters", PList [])]).
Proof. unfold process_csv. simpl. reflexivity. Qed.

End Facts.

(** The descriptor of the failing call: an average over a column that is
    null. *)
Definition average_null_column : list (string * pyval) :=
  [("operation", PStr "average"); ("column", PNone)].

(** C8 (failing input): the empty text has no row, so no row passes the
    filters; with a descriptor whose [column] is null [process_csv] does not
    return result 0 but raises TypeError, at the unguarded
    [int(operations.get("column", 0))] of C9.  The division itself is
    guarded: on no input is ZeroDivisionError raised, and a call that gets
    past the coercion of the column and the reading of the rows, and in
    which no row passes, returns result 0 whatever the operation name. *)
Theorem no_rows_null_column_raises :
  (Ref.csv_reader "" = inl [] /\
   process_csv (rt := Ref.runtime) "" average_null_column
   = Raise TypeError
       "int() argument must be a string, a bytes-like object or a real number, not 'NoneType'") /\
  (forall (rt : Runtime) (csv_text : string) (operations : list (string * pyval)),
      ~ raised ZeroDivisionError (process_csv csv_text operations)) /\
  (forall (rt : Runtime) (csv_text : string) (operations : list (string * pyval))
          (col_idx : Z) (rows : list (list string)),
      py_int (dict_get_or operations "column" (PInt 0)) = Ok col_idx ->
      csv_reader csv_text = inl rows ->
      values (scan_rows col_idx (read_filters operations) rows) = [] ->
      process_csv csv_text operations =
        Ok [("result", PInt 0); ("rows_matched", PInt 0);
            ("operation", PStr (lower (py_str (dict_get_or operations "operation" (PStr "sum")))));
            ("column", PInt col_idx);
            ("filters", PList (read_filters operations))]).
Proof.
  split; [split; reflexivity|]. split.
  - intros rt csv_text operations. apply process_csv_not_zero_division.
  - intros rt csv_text operations col_idx rows. apply process_csv_no_values.
Qed.

Lemma example_sum_is_40_witness :
  process_csv (rt := Ref.runtime) example_text example_ops =
    Ok [("result", PFloat 40); ("rows_matched", PInt 1); ("operation", PStr "sum");
        ("column", PInt 1);
        ("filters", PList [PDict [("column", PInt 0); ("op", PStr ">"); ("value", PInt 1)]])].
Proof. apply (example_sum_is_40 (rt := Ref.runtime) example_text); reflexivity. Defined.

(** C7 (as stated) fails: the executor answers 40.0 with one matching row,
    not 0 with none. *)
Lemma example_result_not_zero :
  exists out,
    process_csv (rt := Ref.runtime) example_text example_ops = Ok out /\
    dict_get out "result" = Some (PFloat 40) /\
    dict_get out "rows_matched" = Some (PInt 1) /\
    ~ (dict_get out "result" = Some (PInt 0) /\ dict_get out "rows_matched" = Some (PInt 0)).
Proof.
  eexists. split; [vm_compute; reflexivity|].
  repeat split. intros [H _]. discriminate H.
Qed.

End ProcessCsvSpec.

(** ** The submission coordinator *)

Module SendRequestSpec.
Import Py SendRequest.

Section Facts.
Context {rt : Runtime}.
Variable time_time : nat -> float.
Variable urlparse : string -> res (string * string).
Variable requests_post : list request -> request -> reply.

(** Lines 108-130 as one step: the payload that would be sent, and the early
    return taken, if any. *)
Definition preamble (url : string) (payload : list (string * pyval))
  : M (list (string * pyval) * option outcome) :=
  do payload1 <- resolve_answer payload ;;
  do payload2 <- inject_secret payload1 ;;
  do rejected <- validate_url urlparse url ;;
  ret (payload2, rejected).

Definition effective_headers (headers : option (list (string * string))) : list (string * string) :=
  match headers with
  | Some (h :: t) => h :: t
  | _ => default_headers
  end.

(** Two states agree on everything but the memoised SECRET. *)
Definition same_session (w w' : world) : Prop :=
  cache w' = cache w /\ url_time w' = url_time w /\ environ w' = environ w /\
  BASE64_STORE w' = BASE64_STORE w /\ ticks w' = ticks w /\ posted w' = posted w.

Lemma same_session_refl (w : world) : same_session w w.
Proof. repeat split. Qed.

Lemma resolve_answer_state (payload : list (string * pyval)) (w : world) :
  snd (resolve_answer payload w) = w.
Proof.
  unfold resolve_answer.
  destruct (dict_get payload "answer") as [[| | | |ans| |]|]; try reflexivity.
  destruct (String.prefix "BASE64_KEY:" ans); [|reflexivity].
  unfold bindM, gets. simpl.
  destruct (BASE64_STORE w !! _); reflexivity.
Qed.

Lemma inject_secret_state (payload : list (string * pyval)) (w : world) :
  exists payload', fst (inject_secret payload w) = Ok payload' /\
                   same_session w (snd (inject_secret payload w)).
Proof.
  unfold inject_secret, bindM, gets, getenv, modify, ret. simpl.
  destruct (SECRET w) as [s|]; simpl.
  - destruct (_ && _); eexists; split; try reflexivity; apply same_session_refl.
  - destruct (_ && _); eexists; split; try reflexivity; repeat split.
Qed.

Lemma validate_url_state (url : string) (w : world) :
  snd (validate_url urlparse url w) = w.
Proof.
  unfold validate_url, bindM, lift, ret.
  destruct (urlparse url) as [[scheme netloc]|k msg]; [|reflexivity].
  destruct (_ || _); [reflexivity|].
  destruct (existsb _ _); reflexivity.
Qed.

Lemma validate_url_rejects (url scheme netloc : string) (w : world) :
  urlparse url = Ok (scheme, netloc) ->
  scheme = "" \/ netloc = "" \/ existsb (fun blocked => contains blocked url) blocked_domains = true ->
  exists o, validate_url urlparse url w = (Ok (Some o), w) /\
            (o = InvalidURL url \/ o = PlaceholderURL url).
Proof.
  intros Hparse Hbad. unfold validate_url, bindM, lift, ret. rewrite Hparse.
  destruct (String.eqb scheme "" || String.eqb netloc "") eqn:Hempty.
  - eauto.
  - destruct Hbad as [-> | [-> | Hblocked]].
    + discriminate Hempty.
    + rewrite orb_true_r in Hempty. discriminate Hempty.
    + rewrite Hblocked. eauto.
Qed.

Lemma preamble_state (url : string) (payload : list (string * pyval)) (w w1 : world)
  (r : res (list (string * pyval) * option outcome)) :
  preamble url payload w = (r, w1) -> same_session w w1.
Proof.
  unfold preamble, bindM. intros H.
  pose proof (resolve_answer_state payload w) as Hres.
  destruct (resolve_answer payload w) as [[payload1|k msg] wa]; simpl in Hres; subst wa.
  - destruct (inject_secret_state payload1 w) as (payload2 & Hfst & Hsame).
    destruct (inject_secret payload1 w) as [r2 wb]; simpl in Hfst, Hsame; subst r2.
    pose proof (validate_url_state url wb) as Hval.
    destruct (validate_url urlparse url wb) as [[rej|k msg] wc]; simpl in Hval; subst wc;
      injection H as _ <-; exact Hsame.
  - injection H as _ <-. apply same_session_refl.
Qed.

Lemma post_request_unfold (url : string) (payload : list (string * pyval))
  (headers : option (list (string * string))) (w : world) :
  post_request time_time urlparse requests_post url payload headers w =
  match preamble url payload w with
  | (Ok (payload2, None), w1) =>
      catch_all (send time_time requests_post url payload2 (effective_headers headers)) w1
  | (Ok (_, Some o), w1) => (Ok o, w1)
  | (Raise k msg, w1) => (Raise k msg, w1)
  end.
Proof.
  unfold post_request, preamble, bindM.
  destruct (resolve_answer payload w) as [[payload1|k msg] wa]; [|reflexivity].
  destruct (inject_secret payload1 wa) as [[payload2|k msg] wb]; [|reflexivity].
  destruct (validate_url urlparse url wb) as [[[o|]|k msg] wc]; reflexivity.
Qed.

(** The state right after the request has left: one more attempt counted
    for the current task, one more request in the log. *)
Definition sent (w : world) (req : request) : world :=
  set_posted (posted w ++ [req])%list
    (set_cache (<[environ w !! "url" := S (cache_get w (environ w !! "url"))]> (cache w)) w).

Definition http_error (status_code : Z) : bool := (400 <=? status_code) && (status_code <? 600).












(** C4 (amended): when [urlparse] finds no scheme or no host in the target
    URL, or the URL contains a blocked placeholder domain, and the payload's
    answer is not a BASE64_KEY marker missing from the store, [post_request]
    returns an error dict; no request is sent, and the attempt counter, the
    timer registry, the environment, the store and the clock are as they
    were. *)
Theorem rejected_url_sends_nothing (url scheme netloc : string)
  (payload payload1 : list (string * pyval)) (headers : option (list (string * string)))
  (w : world) :
  fst (resolve_answer payload w) = Ok payload1 ->
  urlparse url = Ok (scheme, netloc) ->
  scheme = "" \/ netloc = "" \/
    existsb (fun blocked => contains blocked url) blocked_domains = true ->
  exists o w',
    post_request time_time urlparse requests_post url payload headers w = (Ok o, w') /\
    (o = InvalidURL url \/ o = PlaceholderURL url) /\
    (exists msg, to_dict o = [("error", PStr msg)]) /\
    same_session w w'.
Proof.
  intros Hans Hparse Hbad.
  unfold post_request, bindM.
  pose proof (resolve_answer_state payload w) as Hstate.
  destruct (resolve_answer payload w) as [r wa]. simpl in Hans, Hstate. subst r wa.
  destruct (inject_secret_state payload1 w) as (payload2 & Hfst & Hsame).
  destruct (inject_secret payload1 w) as [r wb]. simpl in Hfst, Hsame. subst r.
  destruct (validate_url_rejects url scheme netloc wb Hparse Hbad) as (o & -> & Ho).
  exists o, wb. repeat split; try apply Hsame; try exact Ho.
  destruct Ho as [-> | ->]; eexists; reflexivity.
Qed.


End Facts.

(** *** Concrete runs *)

Definition quiz1 : string := "https://quiz.test/q1".
Definition submit_url : string := "https://quiz.test/submit".

Definition answer42 : list (string * pyval) :=
  [("answer", PStr "42"); ("email", PStr "a@b.c"); ("url", PStr quiz1)].

Definition answer42_signed : list (string * pyval) :=
  [("answer", PStr "42"); ("email", PStr "a@b.c"); ("url", PStr quiz1); ("secret", PStr "s3cret")].

(** The current task is [quiz1]. *)
Definition on_quiz1 : world := Ref.fresh {["url" := quiz1]}.





Lemma rejected_url_sends_nothing_witness :
  exists o w',
    post_request (rt := Ref.runtime) Ref.time_time Ref.urlparse Ref.unreachable
      "https://example.com/x" answer42 None on_quiz1 = (Ok o, w') /\
    (o = InvalidURL "https://example.com/x" \/ o = PlaceholderURL "https://example.com/x") /\
    (exists msg, to_dict o = [("error", PStr msg)]) /\
    same_session on_quiz1 w'.
Proof.
  apply (rejected_url_sends_nothing (rt := Ref.runtime) Ref.time_time Ref.urlparse Ref.unreachable
           "https://example.com/x" "https" "example.com" answer42 answer42 None on_quiz1);
    [reflexivity | reflexivity | right; right; reflexivity].
Defined.

(** A process whose SECRET was not yet in the environment when the module
    was imported. *)
Definition late_secret : world :=
  set_SECRET None (Ref.fresh {["url" := quiz1; "SECRET" := "s3cret"]}).

(** C4 (as stated) fails: with the placeholder URL and an answer that names a
    key missing from the store, [post_request] raises KeyError instead of
    returning an error dict; with a placeholder URL whose host opens a
    bracket that is never closed, [urlparse] raises ValueError; and a
    rejected call can leave a trace, the module-level SECRET filled from the
    environment. *)
Lemma rejection_raises_or_leaves_trace :
  post_request (rt := Ref.runtime) Ref.time_time Ref.urlparse Ref.unreachable
    "https://example.com/x" [("answer", PStr "BASE64_KEY:k1")] None on_quiz1
  = (Raise KeyError "k1", on_quiz1) /\
  post_request (rt := Ref.runtime) Ref.time_time Ref.urlparse Ref.unreachable
    "https://[example.com/x" answer42 None on_quiz1
  = (Raise ValueError "Invalid IPv6 URL", on_quiz1) /\
  post_request (rt := Ref.runtime) Ref.time_time Ref.urlparse Ref.unreachable
    "https://example.com/x" answer42 None late_secret
  = (Ok (PlaceholderURL "https://example.com/x"), set_SECRET (Some "s3cret") late_secret) /\
  SECRET (set_SECRET (Some "s3cret") late_secret) <> SECRET late_secret.
Proof. split; [reflexivity | split; [reflexivity | split; [reflexivity | discriminate]]]. Qed.





End SendRequestSpec.

(** ** The control loop and the artifact gate *)

Module AgentSpec.
Import Py SendRequest Agent.

(** *** Substring tests on the rendering *)

Lemma prefix_app (n a b : string) :
  String.prefix n a = true -> String.prefix n (a +:+ b) = true.
Proof.
  revert a. induction n as [|c n IH]; intros a H; [now destruct (a +:+ b)|].
  destruct a as [|c' a]; simpl in *; [discriminate|].
  destruct (Ascii.ascii_dec c c'); [now apply IH | discriminate].
Qed.

Lemma contains_app_l (n a b : string) :
  contains n a = true -> contains n (a +:+ b) = true.
Proof.
  induction a as [|c a IH]; simpl; intros H.
  - rewrite orb_false_r in H. destruct n; [|discriminate].
    destruct b; reflexivity.
  - apply orb_true_iff in H as [H|H]; apply orb_true_iff.
    + left. now apply (prefix_app n (String c a) b).
    + right. now apply IH.
Qed.

Lemma contains_app_r (n a b : string) :
  contains n b = true -> contains n (a +:+ b) = true.
Proof.
  intros H. induction a as [|c a IH]; simpl; [exact H|].
  apply orb_true_iff. now right.
Qed.

Lemma contains_join (n sep : string) (l : list string) (x : string) :
  In x l -> contains n x = true -> contains n (join sep l) = true.
Proof.
  intros Hin Hx. induction l as [|y l IH]; [contradiction|].
  destruct Hin as [-> | Hin].
  - destruct l; simpl; [exact Hx | now apply contains_app_l].
  - specialize (IH Hin). destruct l as [|z l]; [contradiction|].
    change (join sep (y :: z :: l)) with (y +:+ sep +:+ join sep (z :: l)).
    now apply contains_app_r, contains_app_r.
Qed.

(** Characters that [repr] shows unchanged, whichever quote it picks. *)
Definition plain_char (c : ascii) : bool :=
  let n := N_of_ascii c in
  ((32 <=? n) && negb (n =? 127) && negb (n =? 39) && negb (n =? 34) && negb (n =? 92))%N.

Fixpoint plain (s : string) : bool :=
  match s with
  | EmptyString => true
  | String c rest => plain_char c && plain rest
  end.

Lemma repr_char_plain (quote c : ascii) :
  quote = "'"%char \/ quote = double_quote ->
  plain_char c = true -> repr_char quote c = String c "".
Proof.
  intros [-> | ->];
    destruct c as [[] [] [] [] [] [] [] []]; intros H; try discriminate H; reflexivity.
Qed.

Lemma prefix_repr_body (quote : ascii) (n s : string) :
  quote = "'"%char \/ quote = double_quote ->
  plain n = true -> String.prefix n s = true -> String.prefix n (repr_body quote s) = true.
Proof.
  intros Hq. revert s. induction n as [|c n IH]; intros s Hplain Hprefix.
  - now destruct (repr_body quote s).
  - destruct s as [|c' s]; [discriminate Hprefix|].
    simpl in Hplain. apply andb_true_iff in Hplain as [Hc Hn].
    simpl in Hprefix. destruct (Ascii.ascii_dec c c') as [<-|]; [|discriminate Hprefix].
    simpl repr_body. rewrite (repr_char_plain quote c Hq Hc).
    change (String c "" +:+ repr_body quote s) with (String c (repr_body quote s)).
    simpl. destruct (Ascii.ascii_dec c c); [|contradiction]. now apply IH.
Qed.

Lemma contains_prefix (n s : string) : String.prefix n s = true -> contains n s = true.
Proof. intros H. destruct s; cbn [contains]; now rewrite H. Qed.

Lemma contains_repr_body (quote : ascii) (n s : string) :
  quote = "'"%char \/ quote = double_quote ->
  plain n = true -> contains n s = true -> contains n (repr_body quote s) = true.
Proof.
  intros Hq Hplain. induction s as [|c s IH]; intros H.
  - destruct n; [reflexivity | simpl in H; discriminate H].
  - simpl in H. apply orb_true_iff in H as [H|H].
    + apply contains_prefix. now apply prefix_repr_body.
    + simpl repr_body. now apply contains_app_r, IH.
Qed.

(** A word of plain characters that occurs in a str occurs in its [repr]. *)
Lemma contains_repr_str (n s : string) :
  plain n = true -> contains n s = true -> contains n (repr_str s) = true.
Proof.
  intros Hplain H. unfold repr_str.
  set (quote := if _ && _ then double_quote else "'"%char).
  assert (Hq : quote = "'"%char \/ quote = double_quote)
    by (unfold quote; destruct (_ && _); auto).
  change (String quote (repr_body quote s +:+ String quote ""))
    with (String quote "" +:+ (repr_body quote s +:+ String quote "")).
  apply contains_app_r, contains_app_l. now apply contains_repr_body.
Qed.

(** *** The download patterns *)

Lemma match_name_nonempty (exts : list string) (s f : string) :
  match_name exts s = Some f -> f <> "".
Proof.
  unfold match_name.
  destruct (take_word s) as [[|c w] [|d rest]]; try discriminate.
  destruct d as [[] [] [] [] [] [] [] []]; try discriminate.
  destruct (find _ exts); simpl; [|discriminate].
  intros [= <-]. discriminate.
Qed.

Lemma match_tail_nonempty (exts : list string) (s f : string) :
  match_tail exts s = Some f -> f <> "".
Proof.
  induction s as [|c s IH]; simpl.
  - discriminate.
  - destruct (match_name exts (String c s)) eqn:E.
    + intros [= <-]. now apply match_name_nonempty in E.
    + destruct (Ascii.eqb c newline); [discriminate | exact IH].
Qed.

Lemma re_search_nonempty (exts : list string) (s f : string) :
  re_search exts s = Some f -> f <> "".
Proof.
  induction s as [|c s IH]; cbn -[String.prefix marker String.substring String.length].
  - destruct (String.prefix marker ""); [|discriminate].
    destruct (match_tail exts _) eqn:E; [|discriminate].
    intros [= <-]. now apply match_tail_nonempty in E.
  - destruct (if String.prefix marker (String c s) then _ else None) eqn:E.
    + intros [= <-]. destruct (String.prefix marker (String c s)); [|discriminate].
      now apply match_tail_nonempty in E.
    + exact IH.
Qed.

Definition overwrite (exts : list string) (found : option string) (m : message) : option string :=
  match re_search exts (content m) with
  | Some f => Some f
  | None => found
  end.

Lemma fold_overwrite_nonempty (exts : list string) (msgs : list message) :
  forall found f,
    (forall g, found = Some g -> g <> "") ->
    fold_left (overwrite exts) msgs found = Some f -> f <> "".
Proof.
  induction msgs as [|m msgs IH]; simpl; intros found f Hfound H.
  - now apply Hfound.
  - apply (IH (overwrite exts found m)); [|exact H].
    intros g Hg.
    unfold overwrite in Hg. destruct (re_search exts (content m)) eqn:E.
    + injection Hg as <-. now apply re_search_nonempty in E.
    + now apply Hfound.
Qed.

Lemma last_download_nonempty (exts : list string) (msgs : list message) (f : string) :
  last_download exts msgs = Some f -> f <> "".
Proof.
  apply (fold_overwrite_nonempty exts msgs None). discriminate.
Qed.

Lemma fold_overwrite_none (exts : list string) (msgs : list message) (found : option string) :
  (forall m, In m msgs -> re_search exts (content m) = None) ->
  fold_left (overwrite exts) msgs found = found.
Proof.
  revert found. induction msgs as [|m msgs IH]; simpl; intros found H; [reflexivity|].
  rewrite IH by auto. unfold overwrite. now rewrite (H m) by auto.
Qed.

(** The most recent turn that matches a pattern decides the file. *)
Lemma last_download_most_recent (exts : list string) (before after : list message)
  (m : message) (f : string) :
  re_search exts (content m) = Some f ->
  (forall m', In m' after -> re_search exts (content m') = None) ->
  last_download exts (before ++ m :: after) = Some f.
Proof.
  intros Hm Hafter. unfold last_download.
  change (fold_left (overwrite exts) (before ++ m :: after) None = Some f).
  rewrite fold_left_app. simpl.
  rewrite fold_overwrite_none by exact Hafter.
  unfold overwrite. now rewrite Hm.
Qed.

Section Gate.
Context {ms : Messages}.

(** A word of plain characters in the content of a turn occurs in the
    rendering of every window that holds the turn. *)
Lemma render_shows_content (window : list message) (m : message) (text : string) :
  In m window -> plain text = true -> contains text (content m) = true ->
  contains text (render window) = true.
Proof.
  intros Hin Hplain Htext. unfold render.
  apply contains_app_r, contains_app_l.
  apply (contains_join _ _ _ (render_message m)); [now apply in_map|].
  unfold render_message.
  do 2 apply contains_app_r. apply contains_app_l.
  unfold render_content. destruct (content_is_str m); [|exact Htext].
  now apply contains_repr_str.
Qed.

(** *** The forced call *)

Definition transcribe_call (uid f : string) : tool_call :=
  {| tc_name := "transcribe_audio"; tc_args := [("file_path", f)];
     tc_id := "force_audio_" +:+ uid |}.

Definition ocr_call (uid f : string) : tool_call :=
  {| tc_name := "ocr_image_tool"; tc_args := [("image_path", f)];
     tc_id := "force_ocr_" +:+ uid |}.

(** The argument of the forced image call: [basename] when the name holds
    LLMFiles. *)
Definition image_arg (i : string) : string :=
  if contains "LLMFiles" i then basename i else i.

Lemma truthy_some (f : string) : f <> "" -> truthy (opt_str (Some f)) = true.
Proof. intros H. simpl. now destruct (String.eqb_spec f ""). Qed.

Lemma forced_call_audio (uid : string) (trimmed_messages : list message) (f : string) :
  forced_call uid trimmed_messages = Some (transcribe_call uid f) <->
  last_download audio_exts (last_n 15 trimmed_messages) = Some f /\
  contains "transcribe_audio" (render (last_n 15 trimmed_messages)) = false.
Proof.
  unfold forced_call.
  set (window := last_n 15 trimmed_messages).
  destruct (last_download audio_exts window) as [a|] eqn:Ha.
  - pose proof (truthy_some a (last_download_nonempty _ _ _ Ha)) as Ht. rewrite Ht.
    destruct (contains "transcribe_audio" (render window)); simpl.
    + split; [|intros [_ H]; discriminate H].
      destruct (_ && _); [|discriminate]. intros H. discriminate H.
    + split; [intros [= ->]; auto | intros [[= ->] _]; reflexivity].
  - simpl. split; [|intros [H _]; discriminate H].
    destruct (_ && _); [|discriminate]. intros H. discriminate H.
Qed.

Lemma forced_call_image (uid : string) (trimmed_messages : list message) (f : string) :
  forced_call uid trimmed_messages = Some (ocr_call uid f) <->
  (last_download audio_exts (last_n 15 trimmed_messages) = None \/
   contains "transcribe_audio" (render (last_n 15 trimmed_messages)) = true) /\
  (exists i, last_download image_exts (last_n 15 trimmed_messages) = Some i /\ f = image_arg i) /\
  contains "ocr_image_tool" (render (last_n 15 trimmed_messages)) = false.
Proof.
  unfold forced_call.
  set (window := last_n 15 trimmed_messages).
  assert (Himg : (if truthy (opt_str (last_download image_exts window))
                     && negb (contains "ocr_image_tool" (render window))
                  then Some (ocr_call uid (image_arg (default "" (last_download image_exts window))))
                  else None) = Some (ocr_call uid f) <->
                 (exists i, last_download image_exts window = Some i /\ f = image_arg i) /\
                 contains "ocr_image_tool" (render window) = false).
  { destruct (last_download image_exts window) as [i|] eqn:Hi.
    - rewrite (truthy_some i (last_download_nonempty _ _ _ Hi)).
      destruct (contains "ocr_image_tool" (render window)); simpl.
      + split; [discriminate | intros [_ H]; discriminate H].
      + split.
        * intros [= <-]. eauto.
        * intros [(i' & Hi' & Hf) _]. injection Hi' as <-. now subst f.
    - simpl. split; [discriminate | intros [(i & H & _) _]; discriminate H]. }
  destruct (last_download audio_exts window) as [a|] eqn:Ha.
  - rewrite (truthy_some a (last_download_nonempty _ _ _ Ha)).
    destruct (contains "transcribe_audio" (render window)); simpl.
    + rewrite Himg. intuition.
    + split; [discriminate | intros [[H|H] _]; discriminate H].
  - simpl. rewrite Himg. intuition.
Qed.

(** Both tool names stand in the text of [SYSTEM_PROMPT]. *)
Lemma prompt_names_tools (EMAIL SECRET : string) :
  contains "transcribe_audio" (SYSTEM_PROMPT EMAIL SECRET) = true /\
  contains "ocr_image_tool" (SYSTEM_PROMPT EMAIL SECRET) = true.
Proof.
  unfold SYSTEM_PROMPT. split.
  - apply (contains_join _ _ _ ("  2. Use transcribe_audio(" +:+ quoted "task.opus" +:+ ")")).
    + simpl. tauto.
    + now apply contains_app_l.
  - apply (contains_join _ _ _
             ("       ocr_image_tool(image_path=" +:+ quoted "task_image.png" +:+ ")")).
    + simpl. tauto.
    + now apply contains_app_l.
Qed.

(** A window whose rendering shows both tool names forces nothing. *)
Lemma gate_shut (uid : string) (trimmed_messages : list message) :
  contains "transcribe_audio" (render (last_n 15 trimmed_messages)) = true ->
  contains "ocr_image_tool" (render (last_n 15 trimmed_messages)) = true ->
  forced_call uid trimmed_messages = None.
Proof.
  intros Ha Hi. unfold forced_call. rewrite Ha, Hi. simpl.
  now rewrite !andb_false_r.
Qed.

Lemma last_n_all {A : Type} (n : nat) (l : list A) : (length l <= n)%nat -> last_n n l = l.
Proof.
  intros H. unfold last_n.
  replace (length l - n)%nat with 0%nat by lia. reflexivity.
Qed.

(** C6 (failing input): while the system prompt is among the last 15
    turns, that is during the first 13 turns after the two opening
    messages of [run_agent], the gate forces nothing, whatever has been
    downloaded: the rendering of the window shows the text of
    [SYSTEM_PROMPT], which names both tools, and the two substring tests
    take that for a transcription and an image analysis already made. *)
Theorem opening_prompt_shuts_gate (uid EMAIL SECRET url : string) (turns : list message) :
  (length turns <= 13)%nat ->
  forced_call uid (initial_messages EMAIL SECRET url ++ turns) = None.
Proof.
  intros Hlen.
  assert (Hwindow : last_n 15 (initial_messages EMAIL SECRET url ++ turns)
                    = (initial_messages EMAIL SECRET url ++ turns)%list).
  { apply last_n_all. simpl. lia. }
  assert (Hin : In (SystemMessage (SYSTEM_PROMPT EMAIL SECRET))
                  (initial_messages EMAIL SECRET url ++ turns)) by (left; reflexivity).
  destruct (prompt_names_tools EMAIL SECRET) as [Ha Hi].
  apply gate_shut; rewrite Hwindow.
  - now apply (render_shows_content _ _ _ Hin).
  - now apply (render_shows_content _ _ _ Hin).
Qed.

End Gate.

(** *** The timeout check *)

Section Timeout.
Context {rt : Runtime} {ms : Messages}.
Variable time_time : nat -> float.
Variable trim_messages : list message -> list message.
Variable uuid8 : world -> string.

(** The state after one reading of the clock. *)
Definition tick (w : world) : world := set_ticks (S (ticks w)) w.

(** The key of the current task in the start-time registry. *)
Definition current_key (w : world) : pykey :=
  match environ w !! "url" with
  | Some u => KStr u
  | None => KNone
  end.

(** The retry offset, "0" when none is set. *)
Definition offset_of (w : world) : string := default "0" (environ w !! "offset").

(** The timeout rule in the words of the design: the task has run for 180
    seconds or more, or a retry offset is set and lies more than 90 seconds
    back. *)
Definition isTimedOut (now_ started : float) (offset : string) : Prop :=
  PrimFloat.leb 180 (PrimFloat.sub now_ started) = true \/
  (offset <> "0" /\
   exists o, float_of_str offset = Some o /\ PrimFloat.ltb 90 (PrimFloat.sub now_ o) = true).

Lemma normal_turn_not_timeout (messages prompt : list message) (w w' : world) :
  normal_turn trim_messages uuid8 messages w <> (Ok (TimeoutEscape prompt), w').
Proof.
  unfold normal_turn, bindM, gets, getenv, ret.
  destruct (negb (existsb is_human (trim_messages messages))); simpl;
    destruct (forced_call _ _); discriminate.
Qed.

Lemma agent_node_started (messages : list message) (w : world) (started : float) :
  url_time w !! current_key w = Some started ->
  agent_node time_time trim_messages uuid8 messages w =
  match timeout_check (time_time (ticks w)) started (offset_of w) with
  | Ok true => (Ok (TimeoutEscape (messages ++ [fail_msg])), tick w)
  | Ok false => normal_turn trim_messages uuid8 messages (tick w)
  | Raise k msg => (Raise k msg, tick w)
  end.
Proof.
  intros Hstarted.
  unfold agent_node, bindM, now, getenv, gets, lift, ret. simpl.
  fold (current_key w). rewrite Hstarted. fold (offset_of w). fold (tick w).
  destruct (timeout_check _ _ _) as [[|]|k msg]; reflexivity.
Qed.

Lemma timeout_check_true (now_ started : float) (offset : string) :
  timeout_check now_ started offset = Ok true <-> isTimedOut now_ started offset.
Proof.
  unfold timeout_check, isTimedOut.
  destruct (PrimFloat.leb 180 (PrimFloat.sub now_ started)); [intuition|].
  destruct (String.eqb_spec offset "0") as [->|Hoff]; simpl.
  - split; [discriminate | intros [H | [H _]]; [discriminate H | contradiction]].
  - destruct (float_of_str offset) as [o|]; simpl.
    + split.
      * intros [= H]. right. eauto.
      * intros [H | (_ & o' & [= <-] & H)]; [discriminate H | now rewrite H].
    + split; [discriminate | intros [H | (_ & o' & H & _)]; discriminate H].
Qed.

Lemma timeout_check_false (now_ started : float) (offset : string) :
  ~ isTimedOut now_ started offset ->
  offset = "0" \/ (exists o, float_of_str offset = Some o) ->
  timeout_check now_ started offset = Ok false.
Proof.
  intros Hnot Hwf.
  destruct (timeout_check now_ started offset) as [[|]|k msg] eqn:E.
  - now apply timeout_check_true in E.
  - reflexivity.
  - exfalso. revert E. unfold timeout_check.
    destruct (PrimFloat.leb 180 (PrimFloat.sub now_ started)); [discriminate|].
    destruct (String.eqb_spec offset "0") as [->|Hoff]; simpl; [discriminate|].
    destruct Hwf as [-> | [o Ho]]; [contradiction|].
    rewrite Ho. discriminate.
Qed.

(** C1: for a current task with a recorded start time, the decision turn
    takes the timeout escape exactly when the task has run for 180 seconds
    or more, or the retry offset is not "0" and lies more than 90 seconds
    back; when neither holds (the offset being "0" or a timestamp), the turn
    goes on with the normal decision. *)
Theorem timeout_check_exact (messages : list message) (w : world) (started : float) :
  url_time w !! current_key w = Some started ->
  (isTimedOut (time_time (ticks w)) started (offset_of w) <->
   agent_node time_time trim_messages uuid8 messages w
   = (Ok (TimeoutEscape (messages ++ [fail_msg])), tick w)) /\
  (isTimedOut (time_time (ticks w)) started (offset_of w) <->
   exists prompt w',
     agent_node time_time trim_messages uuid8 messages w = (Ok (TimeoutEscape prompt), w')) /\
  (~ isTimedOut (time_time (ticks w)) started (offset_of w) ->
   offset_of w = "0" \/ (exists o, float_of_str (offset_of w) = Some o) ->
   agent_node time_time trim_messages uuid8 messages w
   = normal_turn trim_messages uuid8 messages (tick w)).
Proof.
  intros Hstarted. rewrite (agent_node_started messages w started Hstarted).
  assert (Hesc : forall prompt w',
             match timeout_check (time_time (ticks w)) started (offset_of w) with
             | Ok true => (Ok (TimeoutEscape (messages ++ [fail_msg])), tick w)
             | Ok false => normal_turn trim_messages uuid8 messages (tick w)
             | Raise k msg => (Raise k msg, tick w)
             end = (Ok (TimeoutEscape prompt), w') ->
             isTimedOut (time_time (ticks w)) started (offset_of w)).
  { intros prompt w' H. apply timeout_check_true.
    destruct (timeout_check _ _ _) as [[|]|k msg]; [reflexivity | | discriminate H].
    now apply normal_turn_not_timeout in H. }
  split; [|split].
  - split; [|apply Hesc].
    intros H. apply timeout_check_true in H. now rewrite H.
  - split; [|intros (prompt & w' & H); now apply (Hesc prompt w')].
    intros H. apply timeout_check_true in H. rewrite H. eauto.
  - intros Hnot Hwf. now rewrite (timeout_check_false _ _ _ Hnot Hwf).
Qed.

(** C10: when the current task has no entry in the start-time registry, the
    decision turn is the normal one and never the timeout escape, whatever
    the clock and the retry offset hold. *)
Theorem no_start_time_no_timeout (messages : list message) (w : world) :
  url_time w !! current_key w = None ->
  agent_node time_time trim_messages uuid8 messages w
  = normal_turn trim_messages uuid8 messages (tick w) /\
  forall prompt w',
    agent_node time_time trim_messages uuid8 messages w <> (Ok (TimeoutEscape prompt), w').
Proof.
  intros Hnone.
  assert (H : agent_node time_time trim_messages uuid8 messages w
              = normal_turn trim_messages uuid8 messages (tick w)).
  { unfold agent_node, bindM, now, getenv, gets, lift, ret. simpl.
    fold (current_key w). now rewrite Hnone. }
  split; [exact H|]. intros prompt w'. rewrite H. apply normal_turn_not_timeout.
Qed.

End Timeout.

(** *** Concrete runs *)

(** [trim_messages] on a history that fits the token budget. *)
Definition keep_all (messages : list message) : list message := messages.

Definition uid0 (w : world) : string := "0a1b2c3d".

Definition tool_result (tool_name text : string) : message :=
  {| mtype := tool; content := text; content_is_str := true; tool_calls := [];
     name := Some tool_name |}.

Definition ai_request (tool_name : string) (args : list (string * string)) (id : string) : message :=
  {| mtype := ai; content := ""; content_is_str := true;
     tool_calls := [{| tc_name := tool_name; tc_args := args; tc_id := id |}];
     name := None |}.

Definition page_turns : list message :=
  [ai_request "get_rendered_html" [("url", "https://quiz.test/q1")] "call_1";
   tool_result "get_rendered_html" "<html>...</html>"].

(** The opening of a session followed by twelve turns of page reading. *)
Definition opening : list message :=
  (initial_messages "a@b.c" "s3cret" "https://quiz.test/q1"
   ++ page_turns ++ page_turns ++ page_turns ++ page_turns ++ page_turns ++ page_turns)%list.

(** Only [x.opus] has been downloaded, twelve turns into the session. *)
Definition first_audio : list message :=
  (opening ++ [ai_request "download_file" [("url", "https://quiz.test/x.opus")] "call_8";
               tool_result "download_file" "Downloaded file to: LLMFiles/x.opus"])%list.

(** The page has been read and [x.opus] downloaded, right after the opening. *)
Definition audio_at_start : list message :=
  (initial_messages "a@b.c" "s3cret" "https://quiz.test/q1"
   ++ page_turns
   ++ [ai_request "download_file" [("url", "https://quiz.test/x.opus")] "call_2";
       tool_result "download_file" "Downloaded file to: LLMFiles/x.opus"])%list.

(** [y.opus] was downloaded and transcribed; then [x.opus] and [z.png] have
    been downloaded. *)
Definition stale_transcription : list message :=
  (opening ++ [tool_result "download_file" "Downloaded file to: LLMFiles/y.opus";
               ai_request "transcribe_audio" [("file_path", "y.opus")] "force_audio_11112222";
               tool_result "transcribe_audio" "add up the values of the first column";
               ai_request "download_file" [("url", "https://quiz.test/x.opus")] "call_8";
               tool_result "download_file" "Downloaded file to: LLMFiles/x.opus";
               ai_request "download_file" [("url", "https://quiz.test/z.png")] "call_9";
               tool_result "download_file" "Downloaded file to: LLMFiles/z.png"])%list.

(** The rule of the design for one file: its download marker is in the
    window, and no result of the processing tool in the window mentions it. *)
Definition is_result_of (tool_name : string) (m : message) : bool :=
  match mtype m, name m with
  | tool, Some n => String.eqb n tool_name
  | _, _ => false
  end.

Definition spec_pending (exts : list string) (tool_name : string) (window : list message)
  (f : string) : bool :=
  existsb (fun m => match re_search exts (content m) with
                    | Some g => String.eqb g f
                    | None => false
                    end) window
  && negb (existsb (fun m => is_result_of tool_name m && contains f (content m)) window).

(** The task started at 800.0 and the clock reads 1000.0. *)
Definition overdue : world :=
  set_url_time {[KStr SendRequestSpec.quiz1 := float_of_Z 800]} SendRequestSpec.on_quiz1.

Lemma timeout_check_exact_witness :
  agent_node (rt := Ref.runtime) (ms := Ref.messages) Ref.time_time keep_all uid0 [] overdue
  = (Ok (TimeoutEscape [fail_msg]), tick overdue).
Proof.
  destruct (timeout_check_exact (rt := Ref.runtime) (ms := Ref.messages) Ref.time_time keep_all
              uid0 [] overdue (float_of_Z 800)) as [H _]; [reflexivity|].
  apply H. left. reflexivity.
Defined.

Lemma no_start_time_no_timeout_witness :
  agent_node (rt := Ref.runtime) (ms := Ref.messages) Ref.time_time keep_all uid0 first_audio
    SendRequestSpec.on_quiz1
  = normal_turn (ms := Ref.messages) keep_all uid0 first_audio (tick SendRequestSpec.on_quiz1).
Proof.
  apply (no_start_time_no_timeout (rt := Ref.runtime) (ms := Ref.messages) Ref.time_time
           keep_all uid0 first_audio SendRequestSpec.on_quiz1).
  reflexivity.
Defined.

(** C5 (failing input): [x.opus] and [z.png] have both been downloaded and
    neither has been processed, but the window still shows the transcription
    of an earlier file, [y.opus]; the gate takes the audio for transcribed
    and forces the image analysis of [z.png]. *)
Theorem stale_transcription_forces_image :
  spec_pending audio_exts "transcribe_audio" (last_n 15 stale_transcription) "x.opus" = true /\
  spec_pending image_exts "ocr_image_tool" (last_n 15 stale_transcription) "z.png" = true /\
  forced_call (ms := Ref.messages) "0a1b2c3d" stale_transcription
  = Some (ocr_call "0a1b2c3d" "z.png").
Proof. split; [|split]; vm_compute; reflexivity. Qed.

Lemma opening_prompt_shuts_gate_witness :
  spec_pending audio_exts "transcribe_audio" (last_n 15 audio_at_start) "x.opus" = true /\
  forced_call (ms := Ref.messages) "0a1b2c3d" audio_at_start = None.
Proof.
  split; [vm_compute; reflexivity|].
  apply (opening_prompt_shuts_gate (ms := Ref.messages) "0a1b2c3d" "a@b.c" "s3cret"
           "https://quiz.test/q1"
           (page_turns
            ++ [ai_request "download_file" [("url", "https://quiz.test/x.opus")] "call_2";
                tool_result "download_file" "Downloaded file to: LLMFiles/x.opus"])).
  simpl. lia.
Defined.

(** Once the opening has left the window, the same download is forced. *)
Lemma first_audio_forced :
  forced_call (ms := Ref.messages) "0a1b2c3d" first_audio
  = Some (transcribe_call "0a1b2c3d" "x.opus").
Proof. vm_compute. reflexivity. Qed.

End AgentSpec.

(** * Further properties *)

(** ** The tabular executor, continued *)

Module ProcessCsvMore.
Import Py ProcessCsv.

(** The six comparison operators of [_apply_filters]. *)
Definition known_op (op : pyval) : bool :=
  match op with
  | PStr s => existsb (String.eqb s) [">"; ">="; "<"; "<="; "=="; "!="]
  | _ => false
  end.

(** A filter that no row can pass: it is no dict, or its operator is none
    of the six. *)
Definition dead_filter (f : pyval) : Prop :=
  match f with
  | PDict kv => known_op (dict_get_or kv "op" (PStr "==")) = false
  | _ => True
  end.

(** A row that the loop of [process_csv] skips before filtering. *)
Definition unusable `{Runtime} (col_idx : Z) (row : list string) : Prop :=
  row = [] \/ Z.of_nat (length row) <= col_idx \/ row_floats row = None.

Section Facts.
Context {rt : Runtime}.

Lemma compare_op_unknown (op : pyval) (x val : float) :
  known_op op = false -> compare_op op x val = false.
Proof.
  destruct op as [| | | |s| |]; try reflexivity.
  unfold known_op. simpl. intros H.
  repeat (apply orb_false_elim in H; destruct H as [? H]).
  destruct s as [|c s]; [reflexivity|].
  destruct c as [[] [] [] [] [] [] [] []]; try reflexivity;
    (destruct s as [|c s]; [first [reflexivity | discriminate]|]);
    destruct c as [[] [] [] [] [] [] [] []]; try reflexivity;
    (destruct s as [|c s]; [first [reflexivity | discriminate] | reflexivity]).
Qed.

Lemma dead_filter_fails (row_values : list float) (f : pyval) :
  dead_filter f -> filter_passes row_values f = false.
Proof.
  intros Hdead. unfold filter_passes, filter_bindings.
  destruct f as [| | | | | |kv]; try reflexivity.
  simpl in *.
  destruct (py_int (dict_get_or kv "column" (PInt 0))) as [col|]; [|reflexivity]. simpl.
  destruct (py_float (dict_get_or kv "value" (PInt 0))) as [val|]; [|reflexivity]. simpl.
  destruct (py_index row_values col) as [x|]; [|reflexivity]. simpl.
  now apply compare_op_unknown.
Qed.

Lemma apply_filters_member (row_values : list float) (filters : list pyval) (f : pyval) :
  In f filters -> filter_passes row_values f = false ->
  _apply_filters row_values filters = false.
Proof.
  induction filters as [|g filters IH]; intros Hin Hf; [contradiction|].
  simpl. destruct Hin as [-> | Hin].
  - now rewrite Hf.
  - destruct (filter_passes row_values g); [now apply IH | reflexivity].
Qed.

(** X1: a row passes a list of filters exactly when it passes each part of
    the list: filters are a conjunction, and their order does not matter
    for the verdict. *)
Theorem filters_conjunctive (row_values : list float) (fs1 fs2 : list pyval) :
  _apply_filters row_values (fs1 ++ fs2)
  = _apply_filters row_values fs1 && _apply_filters row_values fs2 /\
  _apply_filters row_values (fs1 ++ fs2) = _apply_filters row_values (fs2 ++ fs1).
Proof.
  assert (Happ : forall l1 l2,
             _apply_filters row_values (l1 ++ l2)
             = _apply_filters row_values l1 && _apply_filters row_values l2).
  { intros l1 l2. induction l1 as [|f l1 IH]; simpl; [reflexivity|].
    destruct (filter_passes row_values f); [exact IH | reflexivity]. }
  split; [apply Happ|]. rewrite !Happ. apply andb_comm.
Qed.

Lemma row_step_values (col_idx : Z) (filters : list pyval) (a : acc) (row : list string) :
  values (row_step col_idx filters a row)
  = (values a ++ values (row_step col_idx filters {| values := []; rows_matched := 0 |} row))%list.
Proof.
  unfold row_step. destruct row as [|c cs]; [simpl; now rewrite app_nil_r|].
  destruct (_ <=? col_idx); [simpl; now rewrite app_nil_r|].
  destruct (row_floats (c :: cs)) as [row_vals|]; [|simpl; now rewrite app_nil_r].
  destruct (_apply_filters row_vals filters); simpl; [|simpl; now rewrite app_nil_r].
  destruct (py_index row_vals col_idx); simpl; [reflexivity | simpl; now rewrite app_nil_r].
Qed.

Lemma fold_row_step_values (col_idx : Z) (filters : list pyval) (rows : list (list string)) :
  forall a : acc,
    values (fold_left (row_step col_idx filters) rows a)
    = (values a ++ values (scan_rows col_idx filters rows))%list.
Proof.
  unfold scan_rows.
  induction rows as [|row rows IH]; intros a; simpl.
  - now rewrite app_nil_r.
  - rewrite IH. rewrite (IH (row_step col_idx filters _ row)).
    rewrite (row_step_values col_idx filters a row). now rewrite app_assoc.
Qed.

(** X3: the values collected from two batches of rows read one after the
    other are the values of the first batch followed by those of the
    second: each row is judged on its own. *)
Theorem scan_rows_app (col_idx : Z) (filters : list pyval) (rows1 rows2 : list (list string)) :
  values (scan_rows col_idx filters (rows1 ++ rows2))
  = (values (scan_rows col_idx filters rows1) ++ values (scan_rows col_idx filters rows2))%list.
Proof.
  unfold scan_rows at 1. rewrite fold_left_app.
  now rewrite fold_row_step_values.
Qed.

Lemma row_step_unusable (col_idx : Z) (filters : list pyval) (a : acc) (row : list string) :
  unusable col_idx row -> row_step col_idx filters a row = a.
Proof.
  unfold row_step. intros [-> | [Hshort | Hbad]]; [reflexivity | |].
  - destruct row; [reflexivity|]. apply Z.leb_le in Hshort. now rewrite Hshort.
  - destruct row; [reflexivity|]. rewrite Hbad. now destruct (_ <=? col_idx).
Qed.

Lemma fold_row_step_dead (col_idx : Z) (filters : list pyval) (f : pyval)
  (rows : list (list string)) :
  In f filters -> dead_filter f ->
  forall a : acc, fold_left (row_step col_idx filters) rows a = a.
Proof.
  intros Hin Hdead. induction rows as [|row rows IH]; intros a; simpl; [reflexivity|].
  rewrite IH. unfold row_step.
  destruct row as [|c cs]; [reflexivity|].
  destruct (_ <=? col_idx); [reflexivity|].
  destruct (row_floats (c :: cs)) as [row_vals|]; [|reflexivity].
  now rewrite (apply_filters_member row_vals filters f Hin (dead_filter_fails row_vals f Hdead)).
Qed.

(** X2: when the column is coercible, the reader yields its rows, and one
    filter of the list can never match (it is not a dict, or its operator
    is none of >, >=, <, <=, ==, !=), no row is counted whatever the rows
    are: the call returns result 0 and rows_matched 0 without reporting the
    faulty filter. *)
Theorem dead_filter_matches_nothing (csv_text : string) (operations : list (string * pyval))
  (col_idx : Z) (rows : list (list string)) (f : pyval) :
  py_int (dict_get_or operations "column" (PInt 0)) = Ok col_idx ->
  csv_reader csv_text = inl rows ->
  In f (read_filters operations) ->
  dead_filter f ->
  process_csv csv_text operations =
    Ok [("result", PInt 0); ("rows_matched", PInt 0);
        ("operation", PStr (lower (py_str (dict_get_or operations "operation" (PStr "sum")))));
        ("column", PInt col_idx);
        ("filters", PList (read_filters operations))].
Proof.
  intros Hcol Hrows Hin Hdead.
  unfold process_csv, read_rows. rewrite Hcol, Hrows. simpl.
  unfold scan_rows. rewrite (fold_row_step_dead col_idx _ f _ Hin Hdead). reflexivity.
Qed.

(** X4: a row that is empty, too short for the target column, or holds a
    cell that is not a number changes nothing: the call answers as if the
    row were not in the data. *)
Theorem unusable_row_ignored (text1 text2 : string) (operations : list (string * pyval))
  (rows1 rows2 : list (list string)) (bad : list string) :
  csv_reader text1 = inl (rows1 ++ bad :: rows2)%list ->
  csv_reader text2 = inl (rows1 ++ rows2)%list ->
  (forall col_idx,
      py_int (dict_get_or operations "column" (PInt 0)) = Ok col_idx -> unusable col_idx bad) ->
  process_csv text1 operations = process_csv text2 operations.
Proof.
  intros H1 H2 Hbad. unfold process_csv, read_rows.
  destruct (py_int (dict_get_or operations "column" (PInt 0))) as [col_idx|] eqn:Hcol;
    [|reflexivity].
  simpl. rewrite H1, H2. simpl. unfold scan_rows.
  rewrite !fold_left_app. simpl.
  now rewrite (row_step_unusable col_idx _ _ bad (Hbad col_idx eq_refl)).
Qed.

(** X5: whenever the descriptor's column can be read as an int and the
    reader yields its rows, the call returns the five fields result,
    rows_matched, operation, column and filters, in that order, and
    rows_matched is the number of values that were aggregated. *)
Theorem coercible_column_returns (csv_text : string) (operations : list (string * pyval))
  (col_idx : Z) (rows : list (list string)) :
  py_int (dict_get_or operations "column" (PInt 0)) = Ok col_idx ->
  csv_reader csv_text = inl rows ->
  exists out result,
    process_csv csv_text operations = Ok out /\
    map fst out = ["result"; "rows_matched"; "operation"; "column"; "filters"] /\
    dict_get out "result" = Some result /\
    aggregate (lower (py_str (dict_get_or operations "operation" (PStr "sum"))))
      (values (scan_rows col_idx (read_filters operations) rows)) = Ok result /\
    dict_get out "rows_matched"
    = Some (PInt (Z.of_nat (length (values (scan_rows col_idx (read_filters operations) rows))))) /\
    dict_get out "column" = Some (PInt col_idx).
Proof.
  intros Hcol Hrows.
  destruct (ProcessCsvSpec.process_csv_returns csv_text operations col_idx rows Hcol Hrows)
    as (result & Hagg & Hout).
  eexists. exists result. split; [exact Hout|]. repeat split. exact Hagg.
Qed.

Lemma row_floats_length (row : list string) (row_vals : list float) :
  row_floats row = Some row_vals -> length row_vals = length row.
Proof.
  revert row_vals. induction row as [|x row IH]; simpl; intros row_vals H.
  - now injection H as <-.
  - destruct (float_of_str x); [|discriminate].
    destruct (row_floats row) as [vs|]; [|discriminate].
    injection H as <-. simpl. now rewrite (IH vs).
Qed.

(** X6: a negative target column is not rejected: it counts cells from the
    end of the row (-1 is the last cell), and a row with fewer cells than
    that is skipped. *)
Theorem negative_column_counts_from_end (col_idx : Z) (filters : list pyval) (a : acc)
  (row : list string) (row_vals : list float) :
  row <> [] ->
  row_floats row = Some row_vals ->
  _apply_filters row_vals filters = true ->
  col_idx < 0 ->
  (forall v,
      nth_error row_vals (Z.to_nat (Z.of_nat (length row_vals) + col_idx)) = Some v ->
      (- Z.of_nat (length row_vals)) <= col_idx ->
      row_step col_idx filters a row
      = {| values := values a ++ [v]; rows_matched := S (rows_matched a) |}) /\
  (col_idx < (- Z.of_nat (length row_vals)) -> row_step col_idx filters a row = a).
Proof.
  intros Hne Hrow Hpass Hneg.
  pose proof (row_floats_length row row_vals Hrow) as Hlen.
  assert (Hstep : row_step col_idx filters a row
                  = match py_index row_vals col_idx with
                    | Some v => {| values := values a ++ [v]; rows_matched := S (rows_matched a) |}
                    | None => a
                    end).
  { unfold row_step. destruct row as [|c cs]; [contradiction|].
    assert ((Z.of_nat (length (c :: cs)) <=? col_idx) = false) as -> by (apply Z.leb_gt; lia).
    rewrite Hrow, Hpass. reflexivity. }
  rewrite Hstep. unfold py_index.
  assert ((0 <=? col_idx) && (col_idx <? Z.of_nat (length row_vals)) = false) as ->.
  { apply andb_false_iff. left. apply Z.leb_gt. lia. }
  assert ((col_idx <? 0) = true) as -> by (apply Z.ltb_lt; lia). simpl.
  split.
  - intros v Hv Hlow.
    assert (((- Z.of_nat (length row_vals)) <=? col_idx) = true) as -> by (apply Z.leb_le; lia).
    now rewrite Hv.
  - intros Hlow.
    assert (((- Z.of_nat (length row_vals)) <=? col_idx) = false) as -> by (apply Z.leb_gt; lia).
    reflexivity.
Qed.

End Facts.

Definition typo_ops : list (string * pyval) :=
  [("operation", PStr "sum"); ("column", PInt 1);
   ("filters", PList [PDict [("column", PInt 0); ("op", PStr "=>"); ("value", PInt 1)]])].

Lemma dead_filter_matches_nothing_witness :
  process_csv (rt := Ref.runtime) ProcessCsvSpec.example_text typo_ops =
    Ok [("result", PInt 0); ("rows_matched", PInt 0); ("operation", PStr "sum");
        ("column", PInt 1); ("filters", PList (read_filters typo_ops))].
Proof.
  apply (dead_filter_matches_nothing (rt := Ref.runtime) ProcessCsvSpec.example_text typo_ops 1
           ProcessCsvSpec.example_rows
           (PDict [("column", PInt 0); ("op", PStr "=>"); ("value", PInt 1)]));
    [reflexivity | reflexivity | left; reflexivity | reflexivity].
Defined.

Definition clean_text : string := "1,100" +:+ String Ref.newline "2,40".

Lemma unusable_row_ignored_witness :
  process_csv (rt := Ref.runtime) ProcessCsvSpec.example_text ProcessCsvSpec.example_ops
  = process_csv (rt := Ref.runtime) clean_text ProcessCsvSpec.example_ops.
Proof.
  apply (unusable_row_ignored (rt := Ref.runtime) ProcessCsvSpec.example_text clean_text
           ProcessCsvSpec.example_ops [["1"; "100"]; ["2"; "40"]] [] ["x"; "bad"]);
    [reflexivity | reflexivity | intros col_idx _; right; right; reflexivity].
Defined.

Lemma coercible_column_returns_witness :
  exists out result,
    process_csv (rt := Ref.runtime) ProcessCsvSpec.example_text ProcessCsvSpec.example_ops = Ok out /\
    map fst out = ["result"; "rows_matched"; "operation"; "column"; "filters"] /\
    dict_get out "result" = Some result /\
    aggregate "sum"
      (values (scan_rows (rt := Ref.runtime) 1 (read_filters ProcessCsvSpec.example_ops)
                 ProcessCsvSpec.example_rows)) = Ok result /\
    dict_get out "rows_matched"
    = Some (PInt (Z.of_nat (length (values (scan_rows (rt := Ref.runtime) 1
                                               (read_filters ProcessCsvSpec.example_ops)
                                               ProcessCsvSpec.example_rows))))) /\
    dict_get out "column" = Some (PInt 1).
Proof.
  apply (coercible_column_returns (rt := Ref.runtime) ProcessCsvSpec.example_text
           ProcessCsvSpec.example_ops 1 ProcessCsvSpec.example_rows);
    reflexivity.
Defined.

Lemma negative_column_counts_from_end_witness :
  row_step (rt := Ref.runtime) (-1) [] {| values := []; rows_matched := 0 |} ["2"; "40"]
  = {| values := [40%float]; rows_matched := 1 |}.
Proof.
  apply (proj1 (negative_column_counts_from_end (rt := Ref.runtime) (-1) []
                  {| values := []; rows_matched := 0 |} ["2"; "40"] [2%float; 40%float]
                  ltac:(discriminate) eq_refl eq_refl ltac:(lia)) 40%float);
    [reflexivity | vm_compute; discriminate].
Defined.

End ProcessCsvMore.

(** ** The submission coordinator, continued *)

Module SendRequestMore.
Import Py SendRequest SendRequestSpec.

(** Reading back what [d[key] = v] stored. *)
Lemma dict_get_set_eq (kv : list (string * pyval)) (key : string) (v : pyval) :
  dict_get (dict_set kv key v) key = Some v.
Proof.
  induction kv as [|[k v0] kv IH]; simpl.
  - now rewrite String.eqb_refl.
  - destruct (String.eqb k key) eqn:E; simpl; rewrite E; [reflexivity | exact IH].
Qed.

Lemma dict_get_set_ne (kv : list (string * pyval)) (key key' : string) (v : pyval) :
  key <> key' -> dict_get (dict_set kv key v) key' = dict_get kv key'.
Proof.
  intros Hne. induction kv as [|[k v0] kv IH]; simpl.
  - destruct (String.eqb_spec key key'); [contradiction | reflexivity].
  - destruct (String.eqb_spec k key) as [->|Hk]; simpl.
    + destruct (String.eqb_spec key key'); [contradiction | reflexivity].
    + now rewrite IH.
Qed.

Section Facts.
Context {rt : Runtime}.
Variable time_time : nat -> float.
Variable urlparse : string -> res (string * string).
Variable requests_post : list request -> request -> reply.

(** What the part of [post_request] after the POST may do to the state: it
    registers start times without touching those already there, it writes
    the current url and the retry offset, and it reads the clock. The
    offset it leaves is the one it found, "0", or the text of a float. *)
Definition offset_written (w w' : world) : Prop :=
  environ w' !! "offset" = environ w !! "offset" \/
  environ w' !! "offset" = Some "0" \/
  exists t, environ w' !! "offset" = Some (py_repr (PFloat t)).

Definition session_step (w w' : world) : Prop :=
  cache w' = cache w /\ posted w' = posted w /\
  BASE64_STORE w' = BASE64_STORE w /\ SECRET w' = SECRET w /\
  (forall k t, url_time w !! k = Some t -> url_time w' !! k = Some t) /\
  (forall name, name <> "url" -> name <> "offset" -> environ w' !! name = environ w !! name) /\
  offset_written w w' /\
  (ticks w <= ticks w')%nat.

Lemma session_step_refl (w : world) : session_step w w.
Proof. unfold session_step, offset_written. repeat split; auto. Qed.

Lemma session_step_trans (w1 w2 w3 : world) :
  session_step w1 w2 -> session_step w2 w3 -> session_step w1 w3.
Proof.
  intros (Hc1 & Hp1 & Hb1 & Hs1 & Hu1 & He1 & Ho1 & Ht1)
         (Hc2 & Hp2 & Hb2 & Hs2 & Hu2 & He2 & Ho2 & Ht2).
  unfold session_step. repeat split; try congruence; try lia.
  - auto.
  - intros name H1 H2. rewrite He2, He1; auto.
  - unfold offset_written in *.
    destruct Ho2 as [H | [H | [t H]]]; [|auto|eauto].
    rewrite H. exact Ho1.
Qed.

(** [m] keeps to [session_step], whatever it returns or raises. *)
Definition stepping {A : Type} (m : M A) : Prop :=
  forall w r w', m w = (r, w') -> session_step w w'.

Lemma stepping_bind {A B : Type} (m : M A) (f : A -> M B) :
  stepping m -> (forall a, stepping (f a)) -> stepping (bindM m f).
Proof.
  intros Hm Hf w r w'. unfold bindM.
  destruct (m w) as [[a|k msg] w1] eqn:E.
  - intros H. eapply session_step_trans; [exact (Hm _ _ _ E) | exact (Hf _ _ _ _ H)].
  - intros [= <- <-]. exact (Hm _ _ _ E).
Qed.

Lemma stepping_ret {A : Type} (a : A) : stepping (ret a).
Proof. intros w r w' [= <- <-]. apply session_step_refl. Qed.

Lemma stepping_raise {A : Type} (k : exn_kind) (msg : string) : stepping (raise (A := A) k msg).
Proof. intros w r w' [= <- <-]. apply session_step_refl. Qed.

Lemma stepping_lift {A : Type} (r0 : res A) : stepping (lift r0).
Proof. intros w r w' [= <- <-]. apply session_step_refl. Qed.

Lemma stepping_gets {A : Type} (f : world -> A) : stepping (gets f).
Proof. intros w r w' [= <- <-]. apply session_step_refl. Qed.

Lemma stepping_now : stepping (now time_time).
Proof.
  intros w r w' [= <- <-]. unfold session_step, offset_written. simpl.
  repeat split; auto.
Qed.

Lemma stepping_setenv_url (v : pyval) : stepping (setenv "url" v).
Proof.
  destruct v; try apply stepping_raise.
  unfold setenv. destruct (has_nul s); [apply stepping_raise|].
  intros w r w' [= <- <-]. unfold session_step, offset_written. simpl.
  repeat split; auto.
  - intros name H1 H2. now rewrite lookup_insert_ne.
  - left. now rewrite lookup_insert_ne.
Qed.

Lemma stepping_setenv_offset_zero : stepping (setenv "offset" (PStr "0")).
Proof.
  intros w r w' [= <- <-]. unfold session_step, offset_written. simpl.
  repeat split; auto.
  - intros name H1 H2. now rewrite lookup_insert_ne.
  - right. left. apply lookup_insert_eq.
Qed.

Lemma stepping_setenv_offset_float (t : float) :
  stepping (setenv "offset" (PStr (py_str (PFloat t)))).
Proof.
  unfold setenv. destruct (has_nul _); [apply stepping_raise|].
  intros w r w' [= <- <-]. unfold session_step, offset_written. simpl.
  repeat split; auto.
  - intros name H1 H2. now rewrite lookup_insert_ne.
  - right. right. exists t. apply lookup_insert_eq.
Qed.

Lemma stepping_gets_bind {A B : Type} (g : world -> A) (f : A -> M B) :
  (forall w r w', f (g w) w = (r, w') -> session_step w w') ->
  stepping (bindM (gets g) f).
Proof. intros H w r w'. unfold bindM, gets. apply H. Qed.

(** Lines 175-176: a start time is written only under a key that has none. *)
Lemma touch_step (k : pykey) (w : world) :
  url_time w !! k = None ->
  session_step w (set_url_time (<[k := time_time (ticks w)]> (url_time w))
                    (set_ticks (S (ticks w)) w)).
Proof.
  intros Hk. unfold session_step, offset_written. simpl. repeat split; auto.
  intros k' t Hk'. destruct (decide (k = k')) as [<-|Hne]; [congruence|].
  now rewrite lookup_insert_ne.
Qed.

Lemma handle_reply_stepping (cur_url : option string) (data : pyval) :
  stepping (handle_reply time_time cur_url data).
Proof.
  unfold handle_reply.
  apply stepping_bind; [apply stepping_now | intros t1].
  apply stepping_bind; [apply stepping_now | intros t2].
  apply stepping_bind; [apply stepping_gets | intros started].
  apply stepping_bind; [apply stepping_lift | intros next_url].
  destruct (negb (truthy next_url)); [apply stepping_ret|].
  apply stepping_bind; [apply stepping_lift | intros k].
  apply stepping_gets_bind. intros w r w'.
  match goal with
  | |- bindM _ ?rest w = _ -> _ => assert (Hrest : forall u, stepping (rest u))
  end.
  { intros _.
    apply stepping_bind.
    { destruct (truthy _); [apply stepping_ret|].
      apply stepping_bind; [apply stepping_now | intros cur_time].
      apply stepping_bind; [apply stepping_now | intros t3].
      apply stepping_bind; [apply stepping_gets | intros prev].
      apply stepping_bind; [apply stepping_gets | intros attempts].
      destruct (_ || _); [apply stepping_ret|].
      apply stepping_bind; [apply stepping_now | intros t4].
      apply stepping_bind; [apply stepping_gets | intros registered].
      apply stepping_bind; [apply stepping_setenv_offset_float | intros _].
      apply stepping_ret. }
    intros data'.
    apply stepping_bind; [apply stepping_setenv_url | intros _].
    apply stepping_bind; [|intros _; apply stepping_ret].
    destruct (match _ with PStr s => _ | _ => false end);
      [apply stepping_setenv_offset_zero | apply stepping_ret]. }
  destruct (url_time w !! k) eqn:Hk; intros H.
  - exact (stepping_bind (ret tt) _ (stepping_ret tt) Hrest _ _ _ H).
  - unfold bindM at 1 in H. unfold bindM, now, modify in H. simpl in H.
    eapply session_step_trans; [exact (touch_step k w Hk) | exact (Hrest tt _ _ _ H)].
Qed.

Lemma send_stepping (url : string) (payload : list (string * pyval))
  (headers : list (string * string)) (w w' : world) (r : res outcome) :
  send time_time requests_post url payload headers w = (r, w') ->
  session_step (sent w {| req_url := url; req_json := payload; req_headers := headers |}) w'.
Proof.
  unfold send, bindM, getenv, gets, modify. simpl.
  set (req := {| req_url := url; req_json := payload; req_headers := headers |}).
  fold (sent w req).
  destruct (requests_post (posted w) req) as [msg|status_code json text].
  - intros [= <- <-]. apply session_step_refl.
  - destruct ((400 <=? status_code) && (status_code <? 600)).
    + intros [= <- <-]. apply session_step_refl.
    + destruct json as [data|].
      * apply handle_reply_stepping.
      * intros [= <- <-]. apply session_step_refl.
Qed.

(** The two ways a call can go: it stops before the [try] block (an early
    return, or an exception of the first lines) and only the cached SECRET
    may differ; or the request is sent, the attempt is counted, and what
    follows keeps to [session_step]. *)
Lemma post_request_effect (url : string) (payload : list (string * pyval))
  (headers : option (list (string * string))) (w w' : world) (r : res outcome) :
  post_request time_time urlparse requests_post url payload headers w = (r, w') ->
  same_session w w' \/
  exists payload2 w1 o,
    preamble urlparse url payload w = (Ok (payload2, None), w1) /\
    r = Ok o /\
    session_step
      (sent w1 {| req_url := url; req_json := payload2;
                  req_headers := effective_headers headers |}) w'.
Proof.
  rewrite post_request_unfold.
  destruct (preamble urlparse url payload w) as [[[payload2 [o|]]|k msg] w1] eqn:Hpre.
  - intros [= <- <-]. left. exact (preamble_state _ _ _ _ _ _ Hpre).
  - unfold catch_all.
    destruct (send time_time requests_post url payload2 (effective_headers headers) w1)
      as [[o|k msg] w2] eqn:Hsend; intros [= <- <-]; right;
      exists payload2, w1; eexists; (split; [reflexivity|]); (split; [reflexivity|]);
      exact (send_stepping _ _ _ _ _ _ Hsend).
  - intros [= <- <-]. left. exact (preamble_state _ _ _ _ _ _ Hpre).
Qed.

(** X7: once the first lines have let the call through, [post_request]
    returns a value whatever the server does (refused connection, failure
    status, body that is no JSON or no object): no exception leaves the
    [try] block.  The call counts exactly one attempt for the current task,
    leaves the other counters alone and sends exactly one request. *)
Theorem validated_call_counts_once (url : string) (payload payload2 : list (string * pyval))
  (headers : option (list (string * string))) (w w1 : world) :
  preamble urlparse url payload w = (Ok (payload2, None), w1) ->
  exists o w',
    post_request time_time urlparse requests_post url payload headers w = (Ok o, w') /\
    cache w' = <[environ w !! "url" := S (cache_get w (environ w !! "url"))]> (cache w) /\
    posted w' = (posted w ++ [{| req_url := url; req_json := payload2;
                                 req_headers := effective_headers headers |}])%list.
Proof.
  intros Hpre.
  destruct (post_request time_time urlparse requests_post url payload headers w) as [r w'] eqn:Hrun.
  destruct (preamble_state _ _ _ _ _ _ Hpre) as (Hcache & _ & Henv & _ & _ & Hposted).
  destruct (post_request_effect _ _ _ _ _ _ Hrun) as [Hsame | (p2 & w1' & o & Hpre' & -> & Hstep)].
  - exfalso. rewrite post_request_unfold, Hpre in Hrun. unfold catch_all in Hrun.
    destruct Hsame as (_ & _ & _ & _ & _ & Hp).
    destruct (send time_time requests_post url payload2 (effective_headers headers) w1)
      as [r2 w2] eqn:Hsend.
    apply send_stepping in Hsend as (_ & Hp2 & _).
    assert (w2 = w') as -> by (destruct r2; now injection Hrun).
    rewrite Hp in Hp2. unfold sent in Hp2. simpl in Hp2. rewrite Hposted in Hp2.
    apply (f_equal (@length request)) in Hp2. rewrite length_app in Hp2. simpl in Hp2. lia.
  - rewrite Hpre in Hpre'. injection Hpre' as <- <-.
    exists o, w'. split; [reflexivity|].
    destruct Hstep as (Hc & Hp & _). rewrite Hc, Hp. unfold sent, cache_get. simpl.
    now rewrite Hcache, Henv, Hposted.
Qed.

(** X8: no call, whatever its outcome, removes or changes a start time
    already in the registry, touches the artifact store, lowers an attempt
    counter or drops a request from the log. *)
Theorem registry_append_only (url : string) (payload : list (string * pyval))
  (headers : option (list (string * string))) (w : world) :
  (forall k t,
      url_time w !! k = Some t ->
      url_time (snd (post_request time_time urlparse requests_post url payload headers w)) !! k
      = Some t) /\
  BASE64_STORE (snd (post_request time_time urlparse requests_post url payload headers w))
  = BASE64_STORE w /\
  (forall key,
      (cache_get w key
       <= cache_get (snd (post_request time_time urlparse requests_post url payload headers w))
            key)%nat) /\
  exists sent_now,
    posted (snd (post_request time_time urlparse requests_post url payload headers w))
    = (posted w ++ sent_now)%list.
Proof.
  destruct (post_request time_time urlparse requests_post url payload headers w) as [r w'] eqn:Hrun.
  simpl.
  destruct (post_request_effect _ _ _ _ _ _ Hrun)
    as [(Hc & Hu & _ & Hb & _ & Hp) | (p2 & w1 & o & Hpre & _ & Hstep)].
  - repeat split.
    + intros k t. now rewrite Hu.
    + exact Hb.
    + intros key. unfold cache_get. now rewrite Hc.
    + exists []. now rewrite app_nil_r.
  - destruct (preamble_state _ _ _ _ _ _ Hpre) as (Hc1 & Hu1 & He1 & Hb1 & _ & Hp1).
    destruct Hstep as (Hc & Hp & Hb & _ & Hu & _).
    repeat split.
    + intros k t Hk. apply Hu. unfold sent. simpl. now rewrite Hu1.
    + rewrite Hb. unfold sent. simpl. exact Hb1.
    + intros key. unfold cache_get. rewrite Hc. unfold sent. simpl.
      destruct (decide (environ w1 !! "url" = key)) as [<-|Hne].
      * rewrite lookup_insert_eq. simpl. unfold cache_get. rewrite Hc1. lia.
      * rewrite lookup_insert_ne by exact Hne. now rewrite Hc1.
    + eexists. rewrite Hp. unfold sent. simpl. now rewrite Hp1.
Qed.

(** X9: the retry offset that a call leaves in the environment is the one
    it found, or "0", or the text of a float (a start time): [post_request]
    writes nothing else there. *)
Theorem offset_stays_well_formed (url : string) (payload : list (string * pyval))
  (headers : option (list (string * string))) (w : world) :
  offset_written w (snd (post_request time_time urlparse requests_post url payload headers w)).
Proof.
  destruct (post_request time_time urlparse requests_post url payload headers w) as [r w'] eqn:Hrun.
  simpl.
  destruct (post_request_effect _ _ _ _ _ _ Hrun)
    as [(_ & _ & He & _) | (p2 & w1 & o & Hpre & _ & Hstep)].
  - left. now rewrite He.
  - destruct (preamble_state _ _ _ _ _ _ Hpre) as (_ & _ & He1 & _).
    destruct Hstep as (_ & _ & _ & _ & _ & _ & Ho & _).
    unfold offset_written in *. unfold sent in Ho. simpl in Ho. rewrite He1 in Ho. exact Ho.
Qed.





(** X12: a submission that gets no reply, or a reply with a 4xx or 5xx
    status, is reported as an error value (with the status code and the
    body in the second case) and leaves the current task, the retry offset,
    the start times and the clock as they were. *)
Theorem failed_submission_keeps_task (url : string)
  (payload payload2 : list (string * pyval)) (headers : option (list (string * string)))
  (w w1 : world) :
  preamble urlparse url payload w = (Ok (payload2, None), w1) ->
  (forall msg,
      requests_post (posted w1)
        {| req_url := url; req_json := payload2; req_headers := effective_headers headers |}
      = NoReply msg ->
      exists w',
        post_request time_time urlparse requests_post url payload headers w
        = (Ok (Failure msg), w') /\
        environ w' = environ w /\ url_time w' = url_time w /\ ticks w' = ticks w) /\
  (forall status_code json text,
      requests_post (posted w1)
        {| req_url := url; req_json := payload2; req_headers := effective_headers headers |}
      = Reply status_code json text ->
      http_error status_code = true ->
      exists w',
        post_request time_time urlparse requests_post url payload headers w
        = (Ok (HttpFailure (default (PStr text) json) status_code), w') /\
        dict_get (to_dict (HttpFailure (default (PStr text) json) status_code)) "status_code"
        = Some (PInt status_code) /\
        environ w' = environ w /\ url_time w' = url_time w /\ ticks w' = ticks w).
Proof.
  intros Hpre.
  destruct (preamble_state _ _ _ _ _ _ Hpre) as (_ & Hu1 & He1 & _ & Ht1 & _).
  split.
  - intros msg Hreply. eexists.
    rewrite post_request_unfold, Hpre.
    unfold catch_all, send, bindM, getenv, gets, modify, SendRequest.raise. simpl.
    rewrite Hreply. split; [reflexivity|]. simpl. auto.
  - intros status_code json text Hreply Hstatus. eexists.
    rewrite post_request_unfold, Hpre.
    unfold catch_all, send, bindM, getenv, gets, modify, ret. simpl.
    rewrite Hreply. unfold http_error in Hstatus. rewrite Hstatus.
    split; [reflexivity|]. simpl. auto.
Qed.

Lemma resolve_answer_keeps (payload payload1 : list (string * pyval)) (w w1 : world)
  (key : string) :
  resolve_answer payload w = (Ok payload1, w1) ->
  key <> "answer" ->
  dict_get payload1 key = dict_get payload key.
Proof.
  unfold resolve_answer. intros H Hkey.
  destruct (dict_get payload "answer") as [[| | | |ans| |]|];
    try (injection H as <- _; reflexivity).
  destruct (String.prefix "BASE64_KEY:" ans); [|injection H as <- _; reflexivity].
  unfold bindM, gets, ret, SendRequest.raise in H. simpl in H.
  destruct (BASE64_STORE w !! _); [|discriminate].
  injection H as <- _. apply dict_get_set_ne. congruence.
Qed.

Lemma inject_secret_result (payload payload2 : list (string * pyval)) (w w1 : world) :
  inject_secret payload w = (Ok payload2, w1) ->
  let s := match SECRET w with
           | Some s => Some s
           | None => environ w !! "SECRET"
           end in
  payload2 = if truthy (opt_str s) && negb (truthy (dict_get_or payload "secret" PNone))
             then dict_set payload "secret" (opt_str s)
             else payload.
Proof.
  unfold inject_secret, bindM, gets, getenv, modify, ret. simpl.
  destruct (SECRET w) as [s|]; simpl.
  - destruct (_ && _); now intros [= <- _].
  - destruct (_ && _); now intros [= <- _].
Qed.

Lemma preamble_stages (url : string) (payload payload2 : list (string * pyval))
  (rejected : option outcome) (w w1 : world) :
  preamble urlparse url payload w = (Ok (payload2, rejected), w1) ->
  exists payload1 wb,
    resolve_answer payload w = (Ok payload1, w) /\
    inject_secret payload1 w = (Ok payload2, wb).
Proof.
  unfold preamble, bindM. intros H.
  pose proof (resolve_answer_state payload w) as Hstate.
  destruct (resolve_answer payload w) as [[payload1|k msg] wa] eqn:Hres; [|discriminate].
  simpl in Hstate. subst wa.
  destruct (inject_secret payload1 w) as [[p2|k msg] wb] eqn:Hinj; [|discriminate].
  destruct (validate_url urlparse url wb) as [[rej|k msg] wc]; [|discriminate].
  injection H as <- _ _. exists payload1, wb. split; [reflexivity | exact Hinj].
Qed.

(** X13: when a non-empty SECRET is configured (in the module, or in the
    environment while the module has none), the payload that goes on to be
    sent carries a secret: the configured one, unless the caller's payload
    already had a truthy secret, which is kept. *)
Theorem sent_payload_carries_secret (url s : string) (payload payload2 : list (string * pyval))
  (rejected : option outcome) (w w1 : world) :
  preamble urlparse url payload w = (Ok (payload2, rejected), w1) ->
  SECRET w = Some s \/ (SECRET w = None /\ environ w !! "SECRET" = Some s) ->
  s <> "" ->
  dict_get payload2 "secret"
  = Some (if truthy (dict_get_or payload "secret" PNone)
          then dict_get_or payload "secret" PNone
          else PStr s) /\
  truthy (dict_get_or payload2 "secret" PNone) = true.
Proof.
  intros Hpre Hsecret Hs.
  destruct (preamble_stages _ _ _ _ _ _ Hpre) as (payload1 & wb & Hres & Hinj).
  pose proof (resolve_answer_keeps _ _ _ _ "secret" Hres ltac:(discriminate)) as Hkeep.
  apply inject_secret_result in Hinj. simpl in Hinj.
  assert (Hconf : match SECRET w with
                  | Some s0 => Some s0
                  | None => environ w !! "SECRET"
                  end = Some s).
  { destruct Hsecret as [-> | [-> ->]]; reflexivity. }
  rewrite Hconf in Hinj.
  assert (Hts : truthy (opt_str (Some s)) = true).
  { simpl. destruct (String.eqb_spec s ""); [contradiction | reflexivity]. }
  rewrite Hts in Hinj. simpl in Hinj.
  assert (Hsame : dict_get_or payload1 "secret" PNone = dict_get_or payload "secret" PNone)
    by (unfold dict_get_or; now rewrite Hkeep).
  rewrite Hsame in Hinj.
  destruct (truthy (dict_get_or payload "secret" PNone)) eqn:Hown; simpl in Hinj; subst payload2.
  - assert (Hget : dict_get payload "secret" = Some (dict_get_or payload "secret" PNone)).
    { unfold dict_get_or in *. destruct (dict_get payload "secret"); [reflexivity|].
      discriminate Hown. }
    split.
    + now rewrite Hkeep.
    + unfold dict_get_or at 1. rewrite Hkeep, Hget. exact Hown.
  - split.
    + apply dict_get_set_eq.
    + unfold dict_get_or. rewrite dict_get_set_eq. exact Hts.
Qed.

(** X14: an answer of the form BASE64_KEY:<key> whose key is in the artifact
    store is replaced, in the payload that goes on to be sent, by the value
    stored under that key; the key is everything after the first colon. *)
Theorem answer_indirection_resolved (url key : string) (v : pyval)
  (payload payload2 : list (string * pyval)) (rejected : option outcome) (w w1 : world) :
  preamble urlparse url payload w = (Ok (payload2, rejected), w1) ->
  dict_get payload "answer" = Some (PStr ("BASE64_KEY:" +:+ key)) ->
  BASE64_STORE w !! key = Some v ->
  dict_get payload2 "answer" = Some v.
Proof.
  intros Hpre Hans Hstore.
  destruct (preamble_stages _ _ _ _ _ _ Hpre) as (payload1 & wb & Hres & Hinj).
  apply inject_secret_result in Hinj. simpl in Hinj.
  assert (H1 : dict_get payload1 "answer" = Some v).
  { revert Hres. unfold resolve_answer. rewrite Hans.
    rewrite (AgentSpec.prefix_app "BASE64_KEY:" "BASE64_KEY:" key eq_refl).
    change (default "" (snd (split_once ":" ("BASE64_KEY:" +:+ key)))) with key.
    unfold bindM, gets, ret. rewrite Hstore.
    intros [= <-]. apply dict_get_set_eq. }
  subst payload2. destruct (_ && _); [|exact H1].
  rewrite dict_get_set_ne by discriminate. exact H1.
Qed.

End Facts.

(** *** Concrete runs *)


Definition answer42_request : request :=
  {| req_url := submit_url; req_json := answer42_signed; req_headers := default_headers |}.

(** The store holds one encoded file under the key k1. *)
Definition with_artifact : world :=
  {| cache := cache on_quiz1; url_time := url_time on_quiz1; environ := environ on_quiz1;
     BASE64_STORE := {["k1" := PStr "aGVsbG8="]}; SECRET := SECRET on_quiz1;
     ticks := ticks on_quiz1; posted := posted on_quiz1 |}.

Lemma validated_call_counts_once_witness :
  exists o w',
    post_request (rt := Ref.runtime) Ref.time_time Ref.urlparse Ref.unreachable
      submit_url answer42 None on_quiz1 = (Ok o, w') /\
    cache w' = <[environ on_quiz1 !! "url" := S (cache_get on_quiz1 (environ on_quiz1 !! "url"))]>
                 (cache on_quiz1) /\
    posted w' = (posted on_quiz1 ++ [answer42_request])%list.
Proof.
  apply (validated_call_counts_once (rt := Ref.runtime) Ref.time_time Ref.urlparse
           Ref.unreachable submit_url answer42 answer42_signed None on_quiz1 on_quiz1).
  reflexivity.
Defined.



Lemma failed_submission_keeps_task_witness :
  exists w',
    post_request (rt := Ref.runtime) Ref.time_time Ref.urlparse Ref.unreachable
      submit_url answer42 None on_quiz1 = (Ok (Failure "connection refused"), w') /\
    environ w' = environ on_quiz1 /\ url_time w' = url_time on_quiz1 /\
    ticks w' = ticks on_quiz1.
Proof.
  apply (proj1 (failed_submission_keeps_task (rt := Ref.runtime) Ref.time_time Ref.urlparse
                  Ref.unreachable submit_url answer42 answer42_signed None on_quiz1 on_quiz1
                  eq_refl) "connection refused").
  reflexivity.
Defined.

Lemma sent_payload_carries_secret_witness :
  dict_get answer42_signed "secret"
  = Some (if truthy (dict_get_or answer42 "secret" PNone)
          then dict_get_or answer42 "secret" PNone
          else PStr "s3cret") /\
  truthy (dict_get_or answer42_signed "secret" PNone) = true.
Proof.
  apply (sent_payload_carries_secret Ref.urlparse submit_url "s3cret" answer42 answer42_signed
           None on_quiz1 on_quiz1);
    [reflexivity | left; reflexivity | discriminate].
Defined.

Lemma answer_indirection_resolved_witness :
  dict_get [("answer", PStr "aGVsbG8="); ("secret", PStr "s3cret")] "answer"
  = Some (PStr "aGVsbG8=").
Proof.
  apply (answer_indirection_resolved Ref.urlparse submit_url "k1" (PStr "aGVsbG8=")
           [("answer", PStr "BASE64_KEY:k1")]
           [("answer", PStr "aGVsbG8="); ("secret", PStr "s3cret")] None
           with_artifact with_artifact);
    reflexivity.
Defined.

End SendRequestMore.

(** ** String methods *)

Module PyStrFacts.
Import Py PyStr.

Fixpoint all_chars (p : ascii -> bool) (s : string) : bool :=
  match s with
  | EmptyString => true
  | String c rest => p c && all_chars p rest
  end.

Definition no_newline (s : string) : bool := all_chars (fun c => negb (Ascii.eqb c newline)) s.

Lemma length_app (a b : string) :
  String.length (a +:+ b) = (String.length a + String.length b)%nat.
Proof. induction a as [|c a IH]; simpl; [reflexivity | now rewrite IH]. Qed.

Lemma app_cons (x : ascii) (a b : string) : String x a +:+ b = String x (a +:+ b).
Proof. reflexivity. Qed.

Lemma app_assoc (a b c : string) : (a +:+ b) +:+ c = a +:+ (b +:+ c).
Proof. induction a as [|x a IH]; [reflexivity | now rewrite !app_cons, IH]. Qed.

Lemma app_empty_r (a : string) : a +:+ "" = a.
Proof. induction a as [|x a IH]; [reflexivity | now rewrite app_cons, IH]. Qed.

Lemma length_take (n : nat) (s : string) : (String.length (take n s) <= n)%nat.
Proof.
  revert s. induction n as [|n IH]; intros [|c s]; simpl; try lia.
  specialize (IH s). lia.
Qed.

Lemma lstrip_with_split (p : ascii -> bool) (s : string) :
  exists l, s = l +:+ lstrip_with p s /\ all_chars p l = true.
Proof.
  induction s as [|c s (l & Hs & Hl)]; simpl.
  - exists "". split; reflexivity.
  - destruct (p c) eqn:Hc.
    + exists (String c l). split; [rewrite app_cons; now rewrite <- Hs | simpl; now rewrite Hc, Hl].
    + exists "". split; reflexivity.
Qed.

Lemma rstrip_with_split (p : ascii -> bool) (s : string) :
  exists r, s = rstrip_with p s +:+ r /\ all_chars p r = true.
Proof.
  induction s as [|c s (r & Hs & Hr)]; simpl.
  - exists "". split; reflexivity.
  - destruct (rstrip_with p s) as [|d kept] eqn:Hk.
    + change ("" +:+ r) with r in Hs. subst s. destruct (p c) eqn:Hc.
      * exists (String c r). split; [reflexivity | simpl; now rewrite Hc, Hr].
      * exists r. split; [reflexivity | exact Hr].
    + exists r. split; [|exact Hr]. rewrite app_cons. now rewrite <- Hs.
Qed.

Lemma lstrip_with_app (p : ascii -> bool) (l s : string) :
  all_chars p l = true -> lstrip_with p (l +:+ s) = lstrip_with p s.
Proof.
  induction l as [|c l IH]; [reflexivity|].
  rewrite app_cons. simpl.
  intros H. apply andb_true_iff in H as [Hc Hl]. rewrite Hc. now apply IH.
Qed.

Lemma rstrip_with_all (p : ascii -> bool) (r : string) :
  all_chars p r = true -> rstrip_with p r = "".
Proof.
  induction r as [|c r IH]; simpl; [reflexivity|].
  intros H. apply andb_true_iff in H as [Hc Hr]. now rewrite (IH Hr), Hc.
Qed.

Lemma rstrip_with_app (p : ascii -> bool) (s r : string) :
  all_chars p r = true -> rstrip_with p (s +:+ r) = rstrip_with p s.
Proof.
  intros Hr. induction s as [|c s IH].
  - now apply rstrip_with_all.
  - rewrite app_cons. simpl. now rewrite IH.
Qed.

(** The text kept by [rstrip] has no strippable character at its end. *)
Lemma rstrip_with_idem (p : ascii -> bool) (s : string) :
  rstrip_with p (rstrip_with p s) = rstrip_with p s.
Proof.
  induction s as [|c s IH]; simpl; [reflexivity|].
  destruct (rstrip_with p s) as [|d kept] eqn:Hk.
  - destruct (p c) eqn:Hc; simpl; [reflexivity | now rewrite Hc].
  - simpl. simpl in IH. now rewrite IH.
Qed.

Lemma length_lstrip_with (p : ascii -> bool) (s : string) :
  (String.length (lstrip_with p s) <= String.length s)%nat.
Proof.
  destruct (lstrip_with_split p s) as (l & Hs & _).
  rewrite Hs at 2. rewrite length_app. lia.
Qed.

Lemma length_rstrip_with (p : ascii -> bool) (s : string) :
  (String.length (rstrip_with p s) <= String.length s)%nat.
Proof.
  destruct (rstrip_with_split p s) as (r & Hs & _).
  rewrite Hs at 2. rewrite length_app. lia.
Qed.

Lemma length_strip (s : string) : (String.length (strip s) <= String.length s)%nat.
Proof.
  unfold strip.
  pose proof (length_rstrip_with is_space (lstrip_with is_space s)).
  pose proof (length_lstrip_with is_space s). lia.
Qed.

(** [strip] removes blanks, and nothing else, from both ends. *)
Lemma strip_split (s : string) :
  exists l r, s = l +:+ strip s +:+ r /\ all_chars is_space l = true /\ all_chars is_space r = true.
Proof.
  destruct (lstrip_with_split is_space s) as (l & Hs & Hl).
  destruct (rstrip_with_split is_space (lstrip_with is_space s)) as (r & Ht & Hr).
  exists l, r. unfold strip. rewrite <- Ht. auto.
Qed.

Lemma split_once_no_sep (s : string) :
  no_newline s = true -> split_once newline s = (s, None).
Proof.
  induction s as [|c s IH]; simpl; [reflexivity|].
  intros H. apply andb_true_iff in H as [Hc Hs].
  destruct (Ascii.eqb c newline); [discriminate|]. now rewrite (IH Hs).
Qed.

Lemma split_once_first (a b : string) :
  no_newline a = true -> split_once newline (a +:+ String newline b) = (a, Some b).
Proof.
  induction a as [|c a IH].
  - intros _. reflexivity.
  - rewrite app_cons. simpl. intros H. apply andb_true_iff in H as [Hc Ha].
    destruct (Ascii.eqb c newline); [discriminate|]. now rewrite (IH Ha).
Qed.

Lemma split_once_none (s : string) :
  snd (split_once newline s) = None -> no_newline s = true.
Proof.
  unfold no_newline. induction s as [|c s IH]; simpl; [reflexivity|].
  destruct (Ascii.eqb c newline); [discriminate|].
  destruct (split_once newline s) as [a b]. simpl in *. exact IH.
Qed.

Lemma before_last_newline_none (s : string) :
  no_newline s = true -> before_last_newline s = None.
Proof.
  induction s as [|c s IH]; simpl; [reflexivity|].
  intros H. apply andb_true_iff in H as [Hc Hs]. rewrite (IH Hs).
  now destruct (Ascii.eqb c newline).
Qed.

Lemma before_last_newline_app (a b : string) :
  no_newline b = true -> before_last_newline (a +:+ String newline b) = Some a.
Proof.
  intros Hb. induction a as [|c a IH].
  - change ("" +:+ String newline b) with (String newline b).
    change (before_last_newline (String newline b))
      with (match before_last_newline b with
            | Some kept => Some (String newline kept)
            | None => Some EmptyString
            end).
    now rewrite (before_last_newline_none b Hb).
  - rewrite app_cons. simpl. now rewrite IH.
Qed.

Lemma endswith_app (suffix a b : string) :
  endswith suffix b = true -> endswith suffix (a +:+ b) = true.
Proof.
  intros Hb. induction a as [|c a IH]; [exact Hb|].
  rewrite app_cons. simpl. rewrite IH. apply orb_true_r.
Qed.

Lemma all_chars_app (p : ascii -> bool) (a b : string) :
  all_chars p (a +:+ b) = all_chars p a && all_chars p b.
Proof.
  induction a as [|c a IH]; [reflexivity|].
  rewrite app_cons. simpl. now rewrite IH, andb_assoc.
Qed.

(** Text whose last character is kept is kept whole by [rstrip]. *)
Lemma rstrip_with_keep (p : ascii -> bool) (a b : string) :
  b <> "" -> rstrip_with p b = b -> rstrip_with p (a +:+ b) = a +:+ b.
Proof.
  intros Hne Hb. induction a as [|c a IH]; [exact Hb|].
  rewrite app_cons. simpl. rewrite IH.
  destruct a; [destruct b; [contradiction | reflexivity] | reflexivity].
Qed.

(** What [lstrip] returns starts with a character that is kept. *)
Lemma lstrip_with_head (p : ascii -> bool) (s : string) :
  match lstrip_with p s with
  | EmptyString => True
  | String c _ => p c = false
  end.
Proof.
  induction s as [|c s IH]; simpl; [exact I|].
  destruct (p c) eqn:Hc; [exact IH | exact Hc].
Qed.

Lemma lstrip_with_rstrip (p : ascii -> bool) (s : string) :
  lstrip_with p (rstrip_with p (lstrip_with p s)) = rstrip_with p (lstrip_with p s).
Proof.
  pose proof (lstrip_with_head p s) as H.
  destruct (lstrip_with p s) as [|c t]; [reflexivity|].
  assert (E : exists t', rstrip_with p (String c t) = String c t').
  { simpl. destruct (rstrip_with p t); [rewrite H|]; eauto. }
  destruct E as [t' ->]. simpl. now rewrite H.
Qed.

Lemma strip_idem (s : string) : strip (strip s) = strip s.
Proof. unfold strip. now rewrite lstrip_with_rstrip, rstrip_with_idem. Qed.

(** Blank space around a text that starts and ends with other characters
    is all that [strip] removes. *)
Lemma strip_around (l r core : string) :
  all_chars is_space l = true -> all_chars is_space r = true ->
  strip core = core -> core <> "" ->
  strip (l +:+ core +:+ r) = core.
Proof.
  intros Hl Hr Hcore Hne. unfold strip in *.
  rewrite (lstrip_with_app _ l _ Hl).
  destruct core as [|c core]; [contradiction|].
  pose proof (lstrip_with_head is_space (String c core)) as Hhead.
  assert (Hc : is_space c = false).
  { simpl in Hhead, Hcore. destruct (is_space c) eqn:E; [|reflexivity].
    exfalso.
    pose proof (length_rstrip_with is_space (lstrip_with is_space core)) as H1.
    pose proof (length_lstrip_with is_space core) as H2.
    rewrite Hcore in H1. simpl in H1. lia. }
  rewrite app_cons. simpl lstrip_with. rewrite Hc. rewrite <- app_cons.
  rewrite (rstrip_with_app _ _ r Hr).
  simpl lstrip_with in Hcore. rewrite Hc in Hcore. exact Hcore.
Qed.

End PyStrFacts.

(** ** tools/run_code.py *)

Module RunCodeMore.
Import Py PyStr PyStrFacts RunCode.

(** A block of code between an opening fence, followed by a language tag,
    and a closing fence on a line of its own. *)
Definition fenced (tag body : string) : string :=
  fence +:+ tag +:+ String newline (body +:+ String newline fence).

Lemma fenced_kept (tag body : string) : strip (fenced tag body) = fenced tag body.
Proof.
  unfold strip.
  assert (Hl : lstrip_with is_space (fenced tag body) = fenced tag body) by reflexivity.
  rewrite Hl.
  assert (E : fenced tag body
              = (fence +:+ tag +:+ String newline body) +:+ String newline fence).
  { unfold fenced. rewrite !app_assoc. reflexivity. }
  rewrite E.
  apply (rstrip_with_keep is_space (fence +:+ tag +:+ String newline body)
           (String newline fence)); [discriminate | reflexivity].
Qed.

Lemma strip_code_fences_of (code : string) :
  strip_code_fences code =
  match (if String.prefix fence (strip code) then after_first_newline (strip code)
         else Ok (strip code)) with
  | Ok inner => Ok (strip (if endswith fence inner then rsplit_head inner else inner))
  | Raise k msg => Raise k msg
  end.
Proof.
  unfold strip_code_fences, bind.
  now destruct (String.prefix fence (strip code)); [destruct (after_first_newline _)|].
Qed.

(** X15: [strip_code_fences] returns the body of a fenced block, stripped,
    whatever the language tag on the opening fence and whatever blank space
    surrounds the block. *)
Theorem strip_code_fences_fenced (l r tag body : string) :
  all_chars is_space l = true -> all_chars is_space r = true -> no_newline tag = true ->
  strip_code_fences (l +:+ fenced tag body +:+ r) = Ok (strip body).
Proof.
  intros Hl Hr Htag.
  rewrite strip_code_fences_of.
  rewrite (strip_around l r (fenced tag body) Hl Hr (fenced_kept tag body))
    by (unfold fenced; discriminate).
  assert (Hprefix : String.prefix fence (fenced tag body) = true).
  { unfold fenced. now apply AgentSpec.prefix_app. }
  rewrite Hprefix.
  assert (Hafter : after_first_newline (fenced tag body)
                   = Ok (body +:+ String newline fence)).
  { unfold after_first_newline, fenced.
    rewrite <- app_assoc.
    rewrite split_once_first; [reflexivity|].
    unfold no_newline in *. rewrite all_chars_app, Htag. reflexivity. }
  rewrite Hafter.
  rewrite (endswith_app fence body (String newline fence) eq_refl).
  unfold rsplit_head.
  now rewrite (before_last_newline_app body fence eq_refl).
Qed.

Lemma strip_code_fences_fenced_witness :
  strip_code_fences ("  " +:+ fenced "python" "print(1)" +:+ String newline "") = Ok "print(1)".
Proof.
  exact (strip_code_fences_fenced "  " (String newline "") "python" "print(1)"
           eq_refl eq_refl eq_refl).
Defined.

(** X16: [strip_code_fences] raises IndexError exactly on text that, once
    stripped, opens with a fence and holds no newline (a one-line fenced
    snippet); on every other text it returns. *)
Theorem strip_code_fences_raises_iff (code : string) :
  strip_code_fences code = Raise IndexError "list index out of range" <->
  String.prefix fence (strip code) = true /\ no_newline (strip code) = true.
Proof.
  rewrite strip_code_fences_of.
  destruct (String.prefix fence (strip code)).
  - unfold after_first_newline.
    destruct (snd (split_once newline (strip code))) as [rest|] eqn:E.
    + split; [discriminate|]. intros [_ H].
      rewrite (split_once_no_sep _ H) in E. discriminate E.
    + split; [|reflexivity]. intros _. split; [reflexivity|].
      now apply split_once_none.
  - split; [discriminate | intros [H _]; discriminate H].
Qed.

(** X17: a result of [strip_code_fences] that neither opens nor closes with
    a fence is a fixed point: cleaning it again returns it unchanged. *)
Theorem strip_code_fences_stable (code cleaned : string) :
  strip_code_fences code = Ok cleaned ->
  String.prefix fence cleaned = false -> endswith fence cleaned = false ->
  strip_code_fences cleaned = Ok cleaned.
Proof.
  intros Hfirst Hprefix Hend.
  assert (Hstripped : strip cleaned = cleaned).
  { rewrite strip_code_fences_of in Hfirst.
    destruct (if String.prefix fence (strip code) then _ else _) as [inner|]; [|discriminate].
    injection Hfirst as <-. apply strip_idem. }
  rewrite strip_code_fences_of, Hstripped, Hprefix, Hend. now rewrite Hstripped.
Qed.

Lemma strip_code_fences_stable_witness :
  strip_code_fences "print(1)" = Ok "print(1)".
Proof.
  exact (strip_code_fences_stable (fenced "" "print(1)") "print(1)" eq_refl eq_refl eq_refl).
Defined.

Section Bound.

Variable uv_run : string -> run_result.

(** X18: when the interpreter process was started and has ended,
    [run_code] returns at most 10012 characters: 22 of prefix and 500 of
    the error stream, or 10000 of output and the 12 of the truncation
    mark, or the stripped output when it is shorter than 10000. *)
Theorem run_code_output_bounded (code : string) (returncode : Z) (stdout stderr : string) :
  uv_run code = Exited returncode stdout stderr ->
  Z.of_nat (String.length (run_code uv_run code)) <= 10012.
Proof.
  intros Hrun. unfold run_code. rewrite Hrun.
  destruct (negb (returncode =? 0) || negb (String.eqb stderr "")).
  - rewrite length_app, Nat2Z.inj_add.
    pose proof (length_take (Z.to_nat 500)
                  (if negb (String.eqb stderr "") then stderr else "Unknown error")) as H.
    apply Nat2Z.inj_le in H. rewrite Z2Nat.id in H by lia.
    change (Z.of_nat (String.length "Error executing code: ")) with 22. lia.
  - destruct (10000 <=? Z.of_nat (String.length stdout)) eqn:Hlong.
    + rewrite length_app, Nat2Z.inj_add.
      pose proof (length_take (Z.to_nat 10000) stdout) as H.
      apply Nat2Z.inj_le in H. rewrite Z2Nat.id in H by lia.
      change (Z.of_nat (String.length "...truncated")) with 12. lia.
    + pose proof (length_strip stdout) as H.
      apply Z.leb_gt in Hlong. apply Nat2Z.inj_le in H. lia.
Qed.

End Bound.

(** A run that prints one line and a warning on the error stream. *)
Definition warned (code : string) : run_result :=
  Exited 0 ("42" +:+ String newline "") "DeprecationWarning: old call".

Lemma run_code_output_bounded_witness :
  Z.of_nat (String.length (run_code warned "print(42)")) <= 10012.
Proof.
  exact (run_code_output_bounded warned "print(42)" 0 ("42" +:+ String newline "")
           "DeprecationWarning: old call" eq_refl).
Defined.

End RunCodeMore.

(** ** tools/interpret_instruction.py *)

Module InterpretInstructionMore.
Import Py PyStr PyStrFacts ProcessCsv InterpretInstruction.

(** A model answer wrapped in a json fence. *)
Definition json_block (body : string) : string :=
  "```json" +:+ String newline (body +:+ String newline "```").

(** X19: for an answer wrapped in a json fence, the text handed to
    [json.loads] is the body without its leading blank space, followed by
    the newline that preceded the closing fence. *)
Theorem unfence_json_block (body : string) :
  unfence (json_block body) = lstrip (body +:+ String newline "").
Proof.
  unfold unfence.
  assert (Hkept : strip (json_block body) = json_block body).
  { exact (RunCodeMore.fenced_kept "json" body). }
  rewrite Hkept.
  assert (Hinner : strip_backticks (json_block body)
                   = "json" +:+ String newline (body +:+ String newline "")).
  { unfold strip_backticks.
    assert (Hl : lstrip_with is_backtick (json_block body)
                 = ("json" +:+ String newline (body +:+ String newline "")) +:+ "```").
    { unfold json_block.
      change (lstrip_with is_backtick ("```json" +:+ String newline (body +:+ String newline "```")))
        with ("json" +:+ String newline (body +:+ String newline "```")).
      repeat (rewrite app_assoc || rewrite app_cons). reflexivity. }
    rewrite Hl. rewrite (rstrip_with_app is_backtick _ "```" eq_refl).
    replace ("json" +:+ String newline (body +:+ String newline ""))
      with (("json" +:+ String newline body) +:+ String newline "")
      by (repeat (rewrite app_assoc || rewrite app_cons); reflexivity).
    apply rstrip_with_keep; [discriminate | reflexivity]. }
  change (String.prefix "```" (json_block body)) with true. cbv iota.
  rewrite Hinner.
  change (String.prefix "json" (lower ("json" +:+ String newline (body +:+ String newline ""))))
    with true.
  cbv iota.
  change (drop 4 ("json" +:+ String newline (body +:+ String newline "")))
    with (String newline (body +:+ String newline "")).
  reflexivity.
Qed.

Section Descriptor.
Context {rt : Runtime}.

Variable json_loads : string -> res pyval.

(** The descriptor in which every field has the value that [process_csv]
    takes when the field is absent. *)
Definition default_ops : list (string * pyval) :=
  [("operation", PStr "sum"); ("column", PInt 0); ("filters", PList [])].

Lemma unparsed_is_default (content csv_text : string) :
  (forall data, json_loads (unfence content) <> Ok (PDict data)) ->
  process_csv csv_text (parse_content json_loads content) = process_csv csv_text default_ops.
Proof.
  intros Hbad. unfold parse_content.
  destruct (json_loads (unfence content)) as [v|k msg] eqn:E; [|reflexivity].
  destruct v; try reflexivity.
  exfalso. exact (Hbad _ eq_refl).
Qed.

(** X20: when the model's answer does not parse to a JSON object,
    [interpret_instruction] returns its error payload, and [process_csv]
    given that payload as descriptor, on a text whose rows the reader
    yields, does not fail: it returns the sum of the first column over
    every usable row, as for the descriptor made of the defaults (operation
    sum, column 0, no filter). *)
Theorem unparsed_descriptor_sums_first_column (content csv_text : string)
  (rows : list (list string)) :
  (forall data, json_loads (unfence content) <> Ok (PDict data)) ->
  csv_reader csv_text = inl rows ->
  let a := scan_rows 0 [] rows in
  exists result,
    aggregate "sum" (values a) = Ok result /\
    process_csv csv_text (parse_content json_loads content) =
      Ok [("result", result);
          ("rows_matched", PInt (Z.of_nat (length (values a))));
          ("operation", PStr "sum");
          ("column", PInt 0);
          ("filters", PList [])].
Proof.
  intros Hbad Hrows a.
  rewrite (unparsed_is_default content csv_text Hbad).
  exact (ProcessCsvSpec.process_csv_returns csv_text default_ops 0 rows eq_refl Hrows).
Qed.

End Descriptor.

(** A parser that rejects every text. *)
Definition no_json (s : string) : res pyval := Raise ValueError "Expecting value: line 1 column 1 (char 0)".

Lemma unparsed_descriptor_sums_first_column_witness :
  exists result,
    aggregate "sum"
      (values (scan_rows (rt := Ref.runtime) 0 [] ProcessCsvSpec.example_rows))
    = Ok result /\
    process_csv (rt := Ref.runtime) ProcessCsvSpec.example_text
      (parse_content no_json "Sum the second column.") =
      Ok [("result", result);
          ("rows_matched",
           PInt (Z.of_nat (length (values (scan_rows (rt := Ref.runtime) 0 []
                                             ProcessCsvSpec.example_rows)))));
          ("operation", PStr "sum");
          ("column", PInt 0);
          ("filters", PList [])].
Proof.
  apply (unparsed_descriptor_sums_first_column (rt := Ref.runtime) no_json
           "Sum the second column." ProcessCsvSpec.example_text ProcessCsvSpec.example_rows);
    [intros data; discriminate | reflexivity].
Defined.

End InterpretInstructionMore.

(** ** tools/send_request.py: [get_request] *)

Module GetRequestMore.
Import Py SendRequest GetRequest.

Section Gate.
Context {rt : Runtime}.

Variable time_time : nat -> float.
Variable urlparse : string -> res (string * string).
Variable requests_get : string -> list (string * string) -> reply.

(** What [get_request] makes of the server's reply. *)
Definition fetched (r : reply) : pyval :=
  match r with
  | NoReply msg => PDict [("error", PStr msg)]
  | Reply status_code json text =>
      if (400 <=? status_code) && (status_code <? 600)
      then PDict [("error", default (PStr text) json); ("status_code", PInt status_code)]
      else default (PStr text) json
  end.

(** X21: [get_request] and [post_request] share one gate.  A URL that the
    checks of [post_request] turn down is turned down by [get_request] with
    the same error dict, whatever the server and the headers; a URL that
    they let through is fetched, with the caller's headers when there are
    some and the JSON content type otherwise. *)
Theorem get_request_same_gate (url : string) (headers : option (list (string * string)))
  (w w' : world) (verdict : option outcome) :
  validate_url urlparse url w = (Ok verdict, w') ->
  get_request urlparse requests_get url headers =
  match verdict with
  | Some o => Ok (PDict (to_dict o))
  | None => Ok (fetched (requests_get url
                           (match headers with
                            | Some (h :: t) => h :: t
                            | _ => default_headers
                            end)))
  end.
Proof.
  unfold validate_url, get_request, bindM, lift, ret, bind.
  destruct (urlparse url) as [[scheme netloc]|k msg]; [|discriminate].
  destruct (String.eqb scheme "" || String.eqb netloc ""); [now intros [= <- _]|].
  destruct (existsb _ blocked_domains); [now intros [= <- _]|].
  intros [= <- _]. unfold fetched.
  destruct (requests_get url _) as [msg|status_code json text]; [reflexivity|].
  now destruct ((400 <=? status_code) && (status_code <? 600)).
Qed.

End Gate.

Lemma get_request_same_gate_witness :
  get_request Ref.urlparse (fun _ _ => NoReply "unreachable") "https://example.com/x" None
  = Ok (PDict (to_dict (PlaceholderURL "https://example.com/x"))).
Proof.
  exact (get_request_same_gate Ref.urlparse (fun _ _ => NoReply "unreachable")
           "https://example.com/x" None (Ref.fresh ∅) (Ref.fresh ∅)
           (Some (PlaceholderURL "https://example.com/x")) eq_refl).
Defined.

End GetRequestMore.

(** ** agent.py: the decision node, the file names of the artifact gate and [route] *)

Module AgentMore.
Import Py SendRequest Agent PyStr PyStrFacts Route LocalFiles.

(** *** The characters of a matched file name *)

Definition name_char (c : ascii) : bool := is_word c || Ascii.eqb c ".".

Lemma take_word_chars (s : string) : all_chars is_word (fst (take_word s)) = true.
Proof.
  induction s as [|c s IH]; simpl; [reflexivity|].
  destruct (is_word c) eqn:Hc; [|reflexivity].
  destruct (take_word s) as [w r]. simpl in *. now rewrite Hc, IH.
Qed.

Lemma all_chars_weaken (p q : ascii -> bool) (s : string) :
  (forall c, p c = true -> q c = true) -> all_chars p s = true -> all_chars q s = true.
Proof.
  intros Hpq. induction s as [|c s IH]; simpl; [reflexivity|].
  intros H. apply andb_true_iff in H as [Hc Hs]. now rewrite (Hpq c Hc), IH.
Qed.

Lemma word_is_name_char (c : ascii) : is_word c = true -> name_char c = true.
Proof. unfold name_char. now intros ->. Qed.

Lemma match_name_chars (exts : list string) (s f : string) :
  (forall e, In e exts -> all_chars name_char e = true) ->
  match_name exts s = Some f -> all_chars name_char f = true.
Proof.
  intros Hexts. unfold match_name.
  pose proof (take_word_chars s) as Hw.
  destruct (take_word s) as [[|c w] [|d rest]]; try discriminate.
  destruct d as [[] [] [] [] [] [] [] []]; try discriminate.
  destruct (find _ exts) as [e|] eqn:He; simpl; [|discriminate].
  intros [= <-].
  apply find_some in He as [He _].
  change (all_chars is_word (String c w) = true) in Hw.
  change (String c w +:+ "." +:+ e) with (String c w +:+ String "." e).
  rewrite all_chars_app.
  rewrite (all_chars_weaken is_word name_char _ word_is_name_char Hw).
  simpl. now rewrite (Hexts e He).
Qed.

Lemma match_tail_from_name (exts : list string) (s f : string) :
  match_tail exts s = Some f -> exists s', match_name exts s' = Some f.
Proof.
  induction s as [|c s IH]; simpl.
  - discriminate.
  - destruct (match_name exts (String c s)) eqn:E.
    + intros [= <-]. eauto.
    + destruct (Ascii.eqb c Agent.newline); [discriminate | exact IH].
Qed.

Lemma re_search_from_name (exts : list string) (s f : string) :
  re_search exts s = Some f -> exists s', match_name exts s' = Some f.
Proof.
  induction s as [|c s IH]; cbn -[String.prefix marker String.substring String.length].
  - destruct (String.prefix marker ""); [|discriminate].
    destruct (match_tail exts _) eqn:E; [|discriminate].
    intros [= <-]. now apply match_tail_from_name in E.
  - destruct (if String.prefix marker (String c s) then _ else None) eqn:E.
    + intros [= <-]. destruct (String.prefix marker (String c s)); [|discriminate].
      now apply match_tail_from_name in E.
    + exact IH.
Qed.

Lemma last_download_from_name (exts : list string) (msgs : list message) (f : string) :
  last_download exts msgs = Some f -> exists s', match_name exts s' = Some f.
Proof.
  unfold last_download.
  change (fold_left (AgentSpec.overwrite exts) msgs None = Some f ->
          exists s', match_name exts s' = Some f).
  assert (H : forall found,
             (forall g, found = Some g -> exists s', match_name exts s' = Some g) ->
             fold_left (AgentSpec.overwrite exts) msgs found = Some f ->
             exists s', match_name exts s' = Some f).
  { induction msgs as [|m msgs IH]; simpl; intros found Hfound Hf.
    - now apply Hfound.
    - apply (IH (AgentSpec.overwrite exts found m)); [|exact Hf].
      intros g Hg. unfold AgentSpec.overwrite in Hg.
      destruct (re_search exts (content m)) eqn:E.
      + injection Hg as <-. now apply re_search_from_name in E.
      + now apply Hfound. }
  apply H. discriminate.
Qed.

Lemma exts_name_chars (exts : list string) :
  forallb (all_chars name_char) exts = true ->
  forall e, In e exts -> all_chars name_char e = true.
Proof. intros H e He. now apply (proj1 (forallb_forall _ _) H). Qed.

Lemma last_download_chars (exts : list string) (msgs : list message) (f : string) :
  forallb (all_chars name_char) exts = true ->
  last_download exts msgs = Some f -> all_chars name_char f = true.
Proof.
  intros Hexts Hf. apply last_download_from_name in Hf as [s' Hs'].
  exact (match_name_chars exts s' f (exts_name_chars exts Hexts) Hs').
Qed.

Lemma prefix_slash (s : string) :
  all_chars name_char s = true -> String.prefix "/" s = false.
Proof.
  destruct s as [|c s]; [reflexivity|].
  intros H.
  change (all_chars name_char (String c s)) with (name_char c && all_chars name_char s) in H.
  apply andb_true_iff in H as [Hc _].
  change (String.prefix "/" (String c s))
    with (if Ascii.ascii_dec "/" c then String.prefix "" s else false).
  destruct (Ascii.ascii_dec "/" c) as [<-|]; [discriminate Hc | reflexivity].
Qed.

Lemma no_slash (s : string) : all_chars name_char s = true -> contains "/" s = false.
Proof.
  induction s as [|c s IH]; [reflexivity|].
  intros H. pose proof (prefix_slash _ H) as Hp.
  simpl in H. apply andb_true_iff in H as [_ Hs].
  change (contains "/" (String c s)) with (String.prefix "/" (String c s) || contains "/" s).
  now rewrite Hp, (IH Hs).
Qed.

Lemma basename_name (s : string) : all_chars name_char s = true -> basename s = s.
Proof.
  destruct s as [|c s]; [reflexivity|].
  intros H. simpl in H. apply andb_true_iff in H as [Hc Hs].
  simpl. rewrite (no_slash s Hs).
  destruct (Ascii.eqb_spec c "/") as [->|]; [discriminate Hc | reflexivity].
Qed.

Section ForcedCall.
Context {ms : Messages}.

(** X24: the file handed to a forced call is the name matched by the
    download pattern in the most recent matching turn of the window: it holds
    no slash, so the path clean-up of the image branch ([os.path.basename]
    when the name contains LLMFiles) never changes it. *)
Theorem forced_argument_is_matched_name (uid : string) (trimmed_messages : list message)
  (call : tool_call) :
  forced_call uid trimmed_messages = Some call ->
  exists f,
    contains "/" f = false /\
    ((call = AgentSpec.transcribe_call uid f /\
      last_download audio_exts (last_n 15 trimmed_messages) = Some f) \/
     (call = AgentSpec.ocr_call uid f /\
      last_download image_exts (last_n 15 trimmed_messages) = Some f)).
Proof.
  unfold forced_call.
  set (window := last_n 15 trimmed_messages).
  destruct (truthy (opt_str (last_download audio_exts window))
            && negb (contains "transcribe_audio" (render window))) eqn:Haudio.
  - intros [= <-].
    destruct (last_download audio_exts window) as [a|] eqn:Ha; [|discriminate Haudio].
    exists a. split; [|left; split; reflexivity].
    apply no_slash. now apply (last_download_chars audio_exts window).
  - destruct (truthy (opt_str (last_download image_exts window))
              && negb (contains "ocr_image_tool" (render window))) eqn:Himage; [|discriminate].
    intros [= <-].
    destruct (last_download image_exts window) as [i|] eqn:Hi; [|discriminate Himage].
    pose proof (last_download_chars image_exts window i eq_refl Hi) as Hchars.
    exists i. split; [now apply no_slash|]. right. split; [|reflexivity].
    unfold AgentSpec.ocr_call. simpl.
    destruct (contains "LLMFiles" i); [now rewrite (basename_name i Hchars) | reflexivity].
Qed.

Lemma forced_argument_chars (uid : string) (trimmed_messages : list message)
  (call : tool_call) (key f : string) :
  forced_call uid trimmed_messages = Some call ->
  In (key, f) (tc_args call) ->
  all_chars name_char f = true.
Proof.
  unfold forced_call.
  set (window := last_n 15 trimmed_messages).
  destruct (truthy (opt_str (last_download audio_exts window))
            && negb (contains "transcribe_audio" (render window))) eqn:Haudio.
  - intros [= <-] [[= _ <-]|[]].
    destruct (last_download audio_exts window) as [a|] eqn:Ha; [|discriminate Haudio].
    now apply (last_download_chars audio_exts window).
  - destruct (truthy (opt_str (last_download image_exts window))
              && negb (contains "ocr_image_tool" (render window))) eqn:Himage; [|discriminate].
    intros [= <-] [[= _ <-]|[]].
    destruct (last_download image_exts window) as [i|] eqn:Hi; [|discriminate Himage].
    pose proof (last_download_chars image_exts window i eq_refl Hi) as Hchars.
    simpl. destruct (contains "LLMFiles" i); [now rewrite (basename_name i Hchars) | exact Hchars].
Qed.

(** X26: the file of a forced call is looked up by its tool under
    LLMFiles/, unless its name itself begins with LLMFiles, in which case it
    is looked up as it stands, in the working directory; when nothing
    exists at that path, the tool answers with its not-found message for
    that path, without reading or recognising anything. *)
Theorem forced_file_lookup (uid : string) (trimmed_messages : list message)
  (call : tool_call) (key f : string) :
  forced_call uid trimmed_messages = Some call ->
  In (key, f) (tc_args call) ->
  let p := if String.prefix "LLMFiles" f then f else "LLMFiles/" +:+ f in
  in_llmfiles f = p /\
  forall (path_exists : string -> bool) (recognize generate_content : string -> res string),
    path_exists p = false ->
    transcribe_audio path_exists recognize f = "Error: File not found at " +:+ p /\
    ocr_image_tool path_exists generate_content f = "Error: Image file not found at " +:+ p.
Proof.
  intros Hcall Hin p.
  pose proof (forced_argument_chars uid trimmed_messages call key f Hcall Hin) as Hchars.
  assert (Hp : in_llmfiles f = p).
  { unfold in_llmfiles, path_join, p.
    destruct (String.prefix "LLMFiles" f); [reflexivity|].
    simpl negb. cbv iota. now rewrite (prefix_slash f Hchars). }
  split; [exact Hp|].
  intros path_exists recognize generate_content Hmissing.
  unfold transcribe_audio, ocr_image_tool. now rewrite Hp, Hmissing.
Qed.

End ForcedCall.

Section Node.
Context {rt : Runtime} {ms : Messages}.

Variable time_time : nat -> float.
Variable trim_messages : list message -> list message.
Variable uuid8 : world -> string.

Definition has_human (t : turn) : Prop :=
  match t with
  | TimeoutEscape prompt | Invoke prompt => existsb is_human prompt = true
  | Forced _ => True
  end.

Lemma normal_turn_run (messages : list message) (w : world) :
  exists t, normal_turn trim_messages uuid8 messages w = (Ok t, w) /\ has_human t.
Proof.
  unfold normal_turn, bindM, gets, getenv, ret.
  destruct (existsb is_human (trim_messages messages)) eqn:Hhuman; simpl.
  - destruct (forced_call _ _); eexists; (split; [reflexivity|]); simpl; auto.
  - destruct (forced_call _ _); eexists; (split; [reflexivity|]); simpl; auto.
    rewrite existsb_app. simpl. apply orb_true_r.
Qed.

Lemma agent_node_run (messages : list message) (w : world) :
  (exists t, agent_node time_time trim_messages uuid8 messages w
             = (Ok t, set_ticks (S (ticks w)) w) /\ has_human t) \/
  (exists k msg, agent_node time_time trim_messages uuid8 messages w
                 = (Raise k msg, set_ticks (S (ticks w)) w)).
Proof.
  unfold agent_node, bindM, now, getenv, gets, lift, ret. simpl.
  destruct (url_time w !! _) as [prev|].
  - destruct (timeout_check _ prev _) as [[|]|k msg].
    + left. eexists. split; [reflexivity|]. simpl.
      rewrite existsb_app. simpl. apply orb_true_r.
    + left. apply normal_turn_run.
    + right. eauto.
  - left. apply normal_turn_run.
Qed.

(** X22: every prompt that [agent_node] sends to the model, on a normal
    turn or on the timeout escape, holds at least one human turn, whatever
    [trim_messages] kept of the history. *)
Theorem prompt_has_human_turn (messages : list message) (w w' : world) (prompt : list message) :
  agent_node time_time trim_messages uuid8 messages w = (Ok (Invoke prompt), w') \/
  agent_node time_time trim_messages uuid8 messages w = (Ok (TimeoutEscape prompt), w') ->
  exists m, In m prompt /\ mtype m = human.
Proof.
  intros H.
  assert (Hhuman : existsb is_human prompt = true).
  { destruct (agent_node_run messages w) as [(t & Ht & Hh)|(k & msg & Hr)].
    - rewrite Ht in H. destruct H as [[= -> _]|[= -> _]]; exact Hh.
    - rewrite Hr in H. destruct H as [H|H]; discriminate H. }
  apply existsb_exists in Hhuman as (m & Hin & Hm).
  exists m. split; [exact Hin|].
  unfold is_human in Hm. now destruct (mtype m).
Qed.

(** X23: [agent_node] reads the clock once and writes nothing: whatever it
    returns or raises, the retry counters, the timer registry, the
    environment, the artifact store, the cached secret and the list of
    requests sent are as before. *)
Theorem agent_node_reads_only (messages : list message) (w : world) :
  snd (agent_node time_time trim_messages uuid8 messages w) = set_ticks (S (ticks w)) w.
Proof.
  destruct (agent_node_run messages w) as [(t & Ht & _)|(k & msg & Hr)].
  - now rewrite Ht.
  - now rewrite Hr.
Qed.

End Node.

(** *** [route] *)

(** The last turn reports a malformed function call. *)
Definition malformed (m : emitted) : bool :=
  match dict_get (response_metadata m) "finish_reason" with
  | Some reason => is_str reason "MALFORMED_FUNCTION_CALL"
  | None => false
  end.

Lemma strip_END (l r : string) :
  all_chars is_space l = true -> all_chars is_space r = true -> strip (l +:+ "END" +:+ r) = "END".
Proof. intros Hl Hr. now apply strip_around. Qed.

(** X25: [route] ends the run exactly when the last turn reports no
    malformed call, carries no tool call, and has a str content that is the
    word END with nothing but blank space around it. *)
Theorem route_end_iff (m : emitted) :
  route_last m = END <->
  malformed m = false /\ tool_calls (turn_message m) = [] /\ content_is_str m = true /\
  exists l r, content (turn_message m) = l +:+ "END" +:+ r /\
              all_chars is_space l = true /\ all_chars is_space r = true.
Proof.
  unfold route_last. fold (malformed m).
  destruct (malformed m).
  - split; [discriminate | intros [H _]; discriminate H].
  - destruct (tool_calls (turn_message m)) as [|c cs].
    + destruct (content_is_str m); simpl.
      * destruct (String.eqb_spec (strip (content (turn_message m))) "END") as [E|E].
        -- split; [|reflexivity]. intros _. repeat split.
           destruct (strip_split (content (turn_message m))) as (l & r & Hc & Hl & Hr).
           exists l, r. rewrite E in Hc. auto.
        -- split; [discriminate|]. intros (_ & _ & _ & l & r & Hc & Hl & Hr).
           destruct E. rewrite Hc. now apply strip_END.
      * split; [discriminate | intros (_ & _ & H & _); discriminate H].
    + split; [discriminate | intros (_ & H & _); discriminate H].
Qed.

(** *** Concrete runs *)

(** An image has just been downloaded, twelve turns into the session. *)
Definition image_downloaded : list message :=
  (AgentSpec.opening
   ++ [AgentSpec.ai_request "download_file" [("url", "https://quiz.test/z.png")] "call_8";
       AgentSpec.tool_result "download_file" "Downloaded file to: LLMFiles/z.png"])%list.

Lemma forced_argument_is_matched_name_witness :
  exists f,
    contains "/" f = false /\
    ((AgentSpec.ocr_call "0a1b2c3d" "z.png" = AgentSpec.transcribe_call "0a1b2c3d" f /\
      last_download audio_exts (last_n 15 image_downloaded) = Some f) \/
     (AgentSpec.ocr_call "0a1b2c3d" "z.png" = AgentSpec.ocr_call "0a1b2c3d" f /\
      last_download image_exts (last_n 15 image_downloaded) = Some f)).
Proof.
  apply (forced_argument_is_matched_name (ms := Ref.messages) "0a1b2c3d" image_downloaded
           (AgentSpec.ocr_call "0a1b2c3d" "z.png")).
  vm_compute. reflexivity.
Defined.

Lemma forced_file_lookup_witness :
  in_llmfiles "z.png" = "LLMFiles/z.png" /\
  forall (path_exists : string -> bool) (recognize generate_content : string -> res string),
    path_exists "LLMFiles/z.png" = false ->
    transcribe_audio path_exists recognize "z.png" = "Error: File not found at LLMFiles/z.png" /\
    ocr_image_tool path_exists generate_content "z.png"
    = "Error: Image file not found at LLMFiles/z.png".
Proof.
  apply (forced_file_lookup (ms := Ref.messages) "0a1b2c3d" image_downloaded
           (AgentSpec.ocr_call "0a1b2c3d" "z.png") "image_path" "z.png");
    [vm_compute; reflexivity | left; reflexivity].
Defined.

(** The prompt of a turn on which trimming has kept nothing. *)
Definition cleared_prompt : list message :=
  [HumanMessage ("Context cleared. Continue processing URL: " +:+ SendRequestSpec.quiz1)].

Lemma prompt_has_human_turn_witness :
  exists m, In m cleared_prompt /\ mtype m = human.
Proof.
  apply (prompt_has_human_turn (rt := Ref.runtime) (ms := Ref.messages) Ref.time_time
           AgentSpec.keep_all
           AgentSpec.uid0 [] SendRequestSpec.on_quiz1
           (set_ticks (S (ticks SendRequestSpec.on_quiz1)) SendRequestSpec.on_quiz1)
           cleared_prompt).
  left. vm_compute. reflexivity.
Defined.

End AgentMore.
